(** * DAVISHACKS: gaze and hand pointer control

    A shallow embedding of the control logic of [eye_widget.py]
    ([EyeTrackerWidget]) and [hand_widget.py] ([ClickController],
    [HandTrackerWidget]), and the properties its specification states.

    Conventions of the embedding.
    - A Python [float] is an exact rational ([Q]); a Python [int] is [Z].
      [int(x)] on a float truncates toward zero ([py_int]).
    - True division raises [ZeroDivisionError] on a zero divisor and
      [min]/[max] raise [ValueError] on an empty sequence: both are
      modelled in [option] ([py_div], [py_min_seq], [py_max_seq]).
    - The square roots the code takes through library calls
      ([x ** 0.5], [np.linalg.norm], [np.hypot]) are irrational in general,
      so they are parameters of the development: [Section] variables
      [pow_half], [norm2] and [hypot].  Theorems hold for every
      instance; the concrete instances used in examples are built on
      [Z.sqrt] ([Approx]).
    - A method that mutates [self] and calls [pyautogui] / Qt becomes a
      function from the state before to the state after and the list of
      commands and signals it issued, in order. *)

From Stdlib Require Import ZArith QArith Qabs Qround Lia Lqa List Bool String.
Import ListNotations.

Local Open Scope Q_scope.

(** ** Python numerics *)

Module PyNum.

(** [x < y] on floats, as a test. *)
Definition Qlt_bool (x y : Q) : bool := negb (Qle_bool y x).

(** [int(q)]: truncation toward zero. *)
Definition py_int (q : Q) : Z := Z.quot (Qnum q) (Zpos (Qden q)).

(** [max(a, b)] and [min(a, b)]: the first argument wins a tie. *)
Definition py_max (a b : Q) : Q := if Qlt_bool a b then b else a.
Definition py_min (a b : Q) : Q := if Qlt_bool b a then b else a.

(** [min(seq)] and [max(seq)]; [None] is the [ValueError] on an empty one. *)
Definition py_min_seq (l : list Q) : option Q :=
  match l with
  | [] => None
  | x :: r => Some (fold_left py_min r x)
  end.

Definition py_max_seq (l : list Q) : option Q :=
  match l with
  | [] => None
  | x :: r => Some (fold_left py_max r x)
  end.

(** [a / b]; [None] is the [ZeroDivisionError]. *)
Definition py_div (a b : Q) : option Q :=
  if Qeq_bool b 0 then None else Some (a / b).

(** [round(q)] of Python 3: to the nearest integer, ties to even. *)
Definition py_round (q : Q) : Z :=
  let fl := Qfloor q in
  let frac := q - inject_Z fl in
  if Qlt_bool frac (1#2) then fl
  else if Qlt_bool (1#2) frac then (fl + 1)%Z
  else if Z.even fl then fl else (fl + 1)%Z.

End PyNum.
Export PyNum.

(** ** Concrete square roots, for examples

    [sqrt_approx q] is the square root of [q] rounded down to a multiple of
    [2^-26]; it is exact on squares of integers. *)

Module Approx.

Definition scale : Z := 2 ^ 26.

Definition sqrt_approx (q : Q) : Q :=
  inject_Z (Z.sqrt ((Qnum q * (scale * scale)) / Zpos (Qden q))) / inject_Z scale.

Definition hypot_approx (x y : Q) : Q := sqrt_approx (x * x + y * y).

End Approx.

(** ** Commands sent to the pointer driver ([pyautogui]) *)

Inductive command : Type :=
| MoveTo (x y : Z) (duration : Q)
| Click
| MouseDown
| MouseUp
| Scroll (amount : Z).

Definition is_scroll (c : command) : bool :=
  match c with Scroll _ => true | _ => false end.
Definition is_click (c : command) : bool :=
  match c with Click => true | _ => false end.

(** How many commands of a kind a frame issued. *)
Definition count (p : command -> bool) (l : list command) : nat :=
  List.length (filter p l).

(** A landmark is a normalized point; a landmark set is indexed by the
    model's fixed landmark numbers. *)
Definition point : Type := Q * Q.
Definition landmarks : Type := nat -> point.

(** ** hand_widget.py *)

Module Hand.

(** [ClickController]: the fields [__init__] sets. *)
Record ClickController : Type := mkController {
  down : bool;
  thresh : Z;
  scroll_mode : bool;
  last_y : option Q
}.

Definition init : ClickController :=
  {| down := false; thresh := 40; scroll_mode := false; last_y := None |}.

(** [mediapipe] classifies each hand. *)
Inductive handedness : Type := Left | Right.

(** [HandTrackerWidget]: the controller and the screen size read once from
    [pyautogui.size()]. *)
Record HandTracker : Type := mkTracker {
  ctrl : ClickController;
  screen_w : Z;
  screen_h : Z
}.

(** What one tick reads: [cap.read()], the frame's shape and the classified
    hands ([zip(res.multi_hand_landmarks, res.multi_handedness)]). *)
Record capture : Type := mkCapture {
  ret : bool;
  height : Z;
  width : Z;
  hands : list (handedness * landmarks)
}.

Section Controller.

(** [np.hypot]. *)
Variable hypot : Q -> Q -> Q.

(** [ClickController.update] (l.19-28). *)
Definition update (thumb_pos index_pos : Z * Z) (c : ClickController)
  : ClickController * list command :=
  let d := hypot (inject_Z (fst thumb_pos - fst index_pos))
                 (inject_Z (snd thumb_pos - snd index_pos)) in
  let prev := down c in
  let now_down := Qlt_bool d (inject_Z (thresh c)) in
  ({| down := now_down; thresh := thresh c;
      scroll_mode := scroll_mode c; last_y := last_y c |},
   if now_down && negb prev then [MouseDown]
   else if negb now_down && prev then [MouseUp]
   else []).

(** The index-tip/middle-tip distance of l.41 and the midpoint of l.46/50. *)
Definition pinch_distance (lm : landmarks) : Q :=
  let pointer_tip := lm 8%nat in
  let middle_tip := lm 12%nat in
  hypot (fst pointer_tip - fst middle_tip) (snd pointer_tip - snd middle_tip).

Definition midpoint_y (lm : landmarks) : Q :=
  (snd (lm 8%nat) + snd (lm 12%nat)) / 2.

(** [int(y_diff * 100)] of l.53-56. *)
Definition scroll_amount (current_y last : Q) : Z :=
  py_int ((current_y - last) * 100).

(** [ClickController.update_with_landmarks] (l.34-79). *)
Definition update_with_landmarks (tp ip : Z * Z) (lm : landmarks)
  (c : ClickController) : ClickController * list command :=
  let '(c1, out1) := update tp ip c in
  if Qlt_bool (pinch_distance lm) 0.05 then
    let '(ly, out2) :=
      match last_y c1 with
      | None => (Some (midpoint_y lm), [])
      | Some last =>
          let current_y := midpoint_y lm in
          let amount := scroll_amount current_y last in
          (Some current_y,
           if (1 <? Z.abs amount)%Z then [Scroll (- amount)] else [])
      end in
    let out3 := if down c1 then [MouseUp] else [] in
    ({| down := down c1; thresh := thresh c1;
        scroll_mode := true; last_y := ly |},
     out1 ++ out2 ++ out3)
  else
    let out2 := if scroll_mode c1 && down c1 then [MouseDown] else [] in
    (if scroll_mode c1
     then {| down := down c1; thresh := thresh c1;
             scroll_mode := false; last_y := None |}
     else c1,
     out1 ++ out2).

(** The loop of [_frame] over the detected hands (l.121-151); [None] is
    the [ZeroDivisionError] of l.134-135 on a frame of zero width or
    height.  The flag is [left_found]. *)
Fixpoint each_hand (h w : Z) (hs : list (handedness * landmarks))
  (t : HandTracker) (left_found : bool)
  : option (HandTracker * bool * list command) :=
  match hs with
  | [] => Some (t, left_found, [])
  | (label, lm) :: rest =>
      let ip := lm 8%nat in
      let tp := lm 4%nat in
      let ix := py_int (fst ip * inject_Z w) in
      let iy := py_int (snd ip * inject_Z h) in
      let tx := py_int (fst tp * inject_Z w) in
      let ty := py_int (snd tp * inject_Z h) in
      match label with
      | Left =>
          match py_div (inject_Z (ix * screen_w t)) (inject_Z w),
                py_div (inject_Z (iy * screen_h t)) (inject_Z h) with
          | Some qx, Some qy =>
              match each_hand h w rest t true with
              | Some (t', lf, out) =>
                  Some (t', lf, MoveTo (py_int qx) (py_int qy) 0 :: out)
              | None => None
              end
          | _, _ => None
          end
      | Right =>
          let '(c', out1) := update_with_landmarks (tx, ty) (ix, iy) lm (ctrl t) in
          match each_hand h w rest
                  {| ctrl := c'; screen_w := screen_w t; screen_h := screen_h t |}
                  left_found with
          | Some (t', lf, out) => Some (t', lf, out1 ++ out)
          | None => None
          end
      end
  end.

(** [HandTrackerWidget._frame] (l.108-155), without the preview. *)
Definition _frame (cap : capture) (t : HandTracker)
  : option (HandTracker * list command) :=
  if negb (ret cap) then Some (t, [])
  else
    match each_hand (height cap) (width cap) (hands cap) t false with
    | None => None
    | Some (t1, left_found, out1) =>
        if negb left_found then
          let '(c', out2) := update (0, 0)%Z (9999, 9999)%Z (ctrl t1) in
          Some ({| ctrl := c'; screen_w := screen_w t1; screen_h := screen_h t1 |},
                out1 ++ out2)
        else Some (t1, out1)
    end.

(** A right hand seen frame after frame: the calls of
    [update_with_landmarks], in order. *)
Record right_frame : Type := mkRight {
  rf_thumb : Z * Z;
  rf_index : Z * Z;
  rf_landmarks : landmarks
}.

Definition right_step (f : right_frame) (c : ClickController)
  : ClickController * list command :=
  update_with_landmarks (rf_thumb f) (rf_index f) (rf_landmarks f) c.

(** The commands of each frame, and the controller after the last. *)
Fixpoint run_right (fs : list right_frame) (c : ClickController)
  : ClickController * list (list command) :=
  match fs with
  | [] => (c, [])
  | f :: rest =>
      let '(c1, out) := right_step f c in
      let '(c2, outs) := run_right rest c1 in
      (c2, out :: outs)
  end.

(** The two tests a frame is judged by. *)
Definition pinched (f : right_frame) (c : ClickController) : bool :=
  Qlt_bool (hypot (inject_Z (fst (rf_thumb f) - fst (rf_index f)))
                  (inject_Z (snd (rf_thumb f) - snd (rf_index f))))
           (inject_Z (thresh c)).

Definition scrolling (f : right_frame) : bool :=
  Qlt_bool (pinch_distance (rf_landmarks f)) 0.05.

End Controller.

End Hand.

(** ** eye_widget.py *)

Module Eye.

(** The tuning attributes of [EyeTrackerWidget]: [_update] only reads
    them; the settings dialog writes the last three. *)
Record Settings : Type := mkSettings {
  blink_thresh : Q;
  double_window : Q;
  ignore_after_blink : Q;
  move_thr : Z;
  alpha : Q;
  dwell : Q
}.

Definition default_settings : Settings :=
  {| blink_thresh := 0.21; double_window := 0.5; ignore_after_blink := 0.3;
     move_thr := 20; alpha := 0.3; dwell := 1.0 |}.

(** The attributes [_update] and [start_recalib] write. *)
Record State : Type := mkState {
  calibrated : bool;
  calibration_points : list point;
  calibration_step : nat;
  is_blinking : bool;
  blink_times : list Q;
  last_blink : Q;
  smoothed : option (Z * Z);
  dwell_ts : Q;
  last_click : Q
}.

Definition init : State :=
  {| calibrated := false; calibration_points := []; calibration_step := 0;
     is_blinking := false; blink_times := []; last_blink := 0;
     smoothed := None; dwell_ts := 0; last_click := 0 |}.

Definition instructions : list string :=
  [ "Look at TOP‑LEFT and double‑blink";
    "Look at TOP‑RIGHT and double‑blink";
    "Look at BOTTOM‑RIGHT and double‑blink";
    "Look at BOTTOM‑LEFT and double‑blink";
    "Look at CENTER and double‑blink" ]%string.

Definition LEFT_EYE : list nat := [33; 160; 158; 133; 153; 144]%nat.
Definition RIGHT_EYE : list nat := [362; 385; 387; 263; 373; 380]%nat.

(** What a frame makes visible outside the widget: pointer commands, the
    prompt, the [calibration_complete] signal.  [BlinkEvent t] marks the
    entry into the falling-edge branch of l.126-128 at time [t], the point
    the specification calls a blink event. *)
Inductive event : Type :=
| BlinkEvent (t : Q)
| SetText (s : string)
| CalibrationComplete
| Pointer (c : command).

Definition is_complete (e : event) : bool :=
  match e with CalibrationComplete => true | _ => false end.
Definition is_pointer_click (e : event) : bool :=
  match e with Pointer Click => true | _ => false end.
Definition is_move (e : event) : bool :=
  match e with Pointer (MoveTo _ _ _) => true | _ => false end.

(** The timestamps of the blink events of a trace, in order. *)
Fixpoint blink_stamps (evs : list event) : list Q :=
  match evs with
  | [] => []
  | BlinkEvent t :: r => t :: blink_stamps r
  | _ :: r => blink_stamps r
  end.

(** Field updates. *)
Definition set_is_blinking (b : bool) (s : State) : State :=
  {| calibrated := calibrated s; calibration_points := calibration_points s;
     calibration_step := calibration_step s; is_blinking := b;
     blink_times := blink_times s; last_blink := last_blink s;
     smoothed := smoothed s; dwell_ts := dwell_ts s;
     last_click := last_click s |}.

Definition set_last_blink (t : Q) (s : State) : State :=
  {| calibrated := calibrated s; calibration_points := calibration_points s;
     calibration_step := calibration_step s; is_blinking := is_blinking s;
     blink_times := blink_times s; last_blink := t;
     smoothed := smoothed s; dwell_ts := dwell_ts s;
     last_click := last_click s |}.

Definition set_blink_times (l : list Q) (s : State) : State :=
  {| calibrated := calibrated s; calibration_points := calibration_points s;
     calibration_step := calibration_step s; is_blinking := is_blinking s;
     blink_times := l; last_blink := last_blink s;
     smoothed := smoothed s; dwell_ts := dwell_ts s;
     last_click := last_click s |}.

Definition set_calibrated (b : bool) (s : State) : State :=
  {| calibrated := b; calibration_points := calibration_points s;
     calibration_step := calibration_step s; is_blinking := is_blinking s;
     blink_times := blink_times s; last_blink := last_blink s;
     smoothed := smoothed s; dwell_ts := dwell_ts s;
     last_click := last_click s |}.

Definition capture_point (p : point) (s : State) : State :=
  {| calibrated := calibrated s;
     calibration_points := calibration_points s ++ [p];
     calibration_step := S (calibration_step s);
     is_blinking := is_blinking s;
     blink_times := blink_times s; last_blink := last_blink s;
     smoothed := smoothed s; dwell_ts := dwell_ts s;
     last_click := last_click s |}.

Definition set_smoothed (p : option (Z * Z)) (s : State) : State :=
  {| calibrated := calibrated s; calibration_points := calibration_points s;
     calibration_step := calibration_step s; is_blinking := is_blinking s;
     blink_times := blink_times s; last_blink := last_blink s;
     smoothed := p; dwell_ts := dwell_ts s;
     last_click := last_click s |}.

Definition set_dwell_ts (t : Q) (s : State) : State :=
  {| calibrated := calibrated s; calibration_points := calibration_points s;
     calibration_step := calibration_step s; is_blinking := is_blinking s;
     blink_times := blink_times s; last_blink := last_blink s;
     smoothed := smoothed s; dwell_ts := t;
     last_click := last_click s |}.

Definition set_last_click (t : Q) (s : State) : State :=
  {| calibrated := calibrated s; calibration_points := calibration_points s;
     calibration_step := calibration_step s; is_blinking := is_blinking s;
     blink_times := blink_times s; last_blink := last_blink s;
     smoothed := smoothed s; dwell_ts := dwell_ts s;
     last_click := t |}.

(** *** The gaze mapper, [_map] (l.90-100) *)

(** The bounding box [(minx, maxx, miny, maxy)] of the first four
    calibration points (l.91-93). *)
Definition bounds (s : State) : option (Q * Q * Q * Q) :=
  let pts := firstn 4 (calibration_points s) in
  match py_min_seq (map fst pts), py_max_seq (map fst pts),
        py_min_seq (map snd pts), py_max_seq (map snd pts) with
  | Some minx, Some maxx, Some miny, Some maxy => Some (minx, maxx, miny, maxy)
  | _, _, _, _ => None
  end.

(** One axis of l.94-98: clamp, then the ratio, [0.5] on a zero span. *)
Definition clamp (lo hi v : Q) : Q := py_max lo (py_min hi v).

Definition axis_ratio (lo hi v : Q) : option Q :=
  let v := clamp lo hi v in
  if negb (Qeq_bool hi lo) then py_div (v - lo) (hi - lo) else Some 0.5.

(** The pair [(rx, ry)] of l.97-98. *)
Definition gaze_ratio (s : State) (ix iy : Q) : option (Q * Q) :=
  match bounds s with
  | None => None
  | Some (minx, maxx, miny, maxy) =>
      match axis_ratio minx maxx ix, axis_ratio miny maxy iy with
      | Some rx, Some ry => Some (rx, ry)
      | _, _ => None
      end
  end.

Section Widget.

(** [pyautogui.size()]. *)
Variables sw sh : Z.

(** [x ** 0.5] and [np.linalg.norm] of a pair. *)
Variable pow_half : Q -> Q.
Variable norm2 : Q -> Q -> Q.

Definition _map (s : State) (ix iy : Q) : option (Z * Z) :=
  match gaze_ratio s ix iy with
  | None => None
  | Some (rx, ry) =>
      Some (py_int (rx * inject_Z (sw - 1)), py_int (ry * inject_Z (sh - 1)))
  end.

(** [_get_iris] (l.86-88) and [_ear] (l.102-107). *)
Definition _get_iris (lm : landmarks) : point := lm 468%nat.

Definition _ear (lm : landmarks) (ids : list nat) : Q :=
  let pts := map lm ids in
  let p := fun i => nth i pts (0, 0) in
  let A := norm2 (fst (p 1%nat) - fst (p 5%nat)) (snd (p 1%nat) - snd (p 5%nat)) in
  let B := norm2 (fst (p 2%nat) - fst (p 4%nat)) (snd (p 2%nat) - snd (p 4%nat)) in
  let C := norm2 (fst (p 0%nat) - fst (p 3%nat)) (snd (p 0%nat) - snd (p 3%nat)) in
  if Qeq_bool C 0 then 0 else (A + B) / (2 * C).

Variable cfg : Settings.

(** *** The blink detector and the calibration manager (l.124-149) *)

(** The body of the falling-edge branch once [is_blinking] and
    [last_blink] are written (l.130-149). *)
Definition on_blink (iris : point) (now : Q) (s : State) : State * list event :=
  if negb (calibrated s) then
    let bt := blink_times s ++ [now] in
    let bt := if (2 <? List.length bt)%nat then tl bt else bt in
    if (List.length bt =? 2)%nat
       && Qlt_bool (nth 1 bt 0 - nth 0 bt 0) (double_window cfg)
    then
      let s1 := capture_point iris (set_blink_times [] s) in
      if (calibration_step s1 <? List.length instructions)%nat
      then (s1, [SetText (nth (calibration_step s1) instructions EmptyString)])
      else (set_calibrated true s1,
            [SetText "Calibration complete!"; CalibrationComplete])
    else (set_blink_times bt s, [])
  else (s, [Pointer Click]).

Definition blink_edge (ear : Q) (iris : point) (now : Q) (s : State)
  : State * list event :=
  if Qlt_bool ear (blink_thresh cfg) && negb (is_blinking s) then
    (set_is_blinking true s, [])
  else if Qle_bool (blink_thresh cfg) ear && is_blinking s then
    let '(s1, out) := on_blink iris now (set_last_blink now (set_is_blinking false s)) in
    (s1, BlinkEvent now :: out)
  else (s, []).

(** *** Smoothing and dwell (l.152-170) *)

Definition distance (target from : Z * Z) : Q :=
  let dx := (fst target - fst from)%Z in
  let dy := (snd target - snd from)%Z in
  pow_half (inject_Z (dx * dx + dy * dy)).

Definition adaptive_alpha (dist : Q) : Q :=
  py_min 0.85 (py_max (alpha cfg) (dist / 300)).

Definition blend (a : Q) (target from : Z) : Z :=
  py_int (a * inject_Z target + (1 - a) * inject_Z from).

Definition gaze_active (now : Q) (s : State) : bool :=
  calibrated s && Qlt_bool (ignore_after_blink cfg) (now - last_blink s).

Definition gaze (iris : point) (now : Q) (s : State)
  : option (State * list event) :=
  if gaze_active now s then
    match _map s (fst iris) (snd iris) with
    | None => None
    | Some target =>
        match smoothed s with
        | None => Some (set_dwell_ts now (set_smoothed (Some target) s), [])
        | Some from =>
            let dist := distance target from in
            if Qlt_bool dist (inject_Z (move_thr cfg)) then
              if Qlt_bool (dwell cfg) (now - dwell_ts s)
                 && Qlt_bool (dwell cfg) (now - last_click s)
              then Some (set_last_click now s, [Pointer Click])
              else Some (s, [])
            else
              let a := adaptive_alpha dist in
              let sx := blend a (fst target) (fst from) in
              let sy := blend a (snd target) (snd from) in
              Some (set_smoothed (Some (sx, sy)) (set_dwell_ts now s),
                    [Pointer (MoveTo sx sy 0.08)])
        end
    end
  else Some (s, []).

(** *** One frame with a face (l.119-170) *)

Record face : Type := mkFace {
  f_ear : Q;
  f_iris : point;
  f_now : Q
}.

Definition update_face (f : face) (s : State) : option (State * list event) :=
  let '(s1, out1) := blink_edge (f_ear f) (f_iris f) (f_now f) s in
  match gaze (f_iris f) (f_now f) s1 with
  | None => None
  | Some (s2, out2) => Some (s2, out1 ++ out2)
  end.

(** [_update] (l.109-170): [cap.read()], the faces found and the clock. *)
Record capture : Type := mkCapture {
  ret : bool;
  faces : list landmarks;
  now : Q
}.

Definition face_of (lm : landmarks) (now : Q) : face :=
  {| f_ear := (_ear lm LEFT_EYE + _ear lm RIGHT_EYE) / 2;
     f_iris := _get_iris lm;
     f_now := now |}.

Definition _update (c : capture) (s : State) : option (State * list event) :=
  if negb (ret c) then Some (s, [])
  else
    match faces c with
    | [] => Some (s, [])
    | lm :: _ => update_face (face_of lm (now c)) s
    end.

(** Frames with a face, one after the other: the events of each frame and
    the state after the last. *)
Fixpoint run (fs : list face) (s : State) : option (State * list (list event)) :=
  match fs with
  | [] => Some (s, [])
  | f :: rest =>
      match update_face f s with
      | None => None
      | Some (s1, out) =>
          match run rest s1 with
          | None => None
          | Some (s2, outs) => Some (s2, out :: outs)
          end
      end
  end.

End Widget.

(** [start_recalib] (l.177-182). *)
Definition start_recalib (s : State) : State * list event :=
  ({| calibrated := false; calibration_points := []; calibration_step := 0;
      is_blinking := is_blinking s; blink_times := blink_times s;
      last_blink := last_blink s; smoothed := None;
      dwell_ts := dwell_ts s; last_click := last_click s |},
   [SetText (nth 0 instructions EmptyString)]).

End Eye.

(** * Properties *)

(** ** Facts about the numeric helpers *)

Module PyNumFacts.

Lemma Qlt_bool_iff (x y : Q) : Qlt_bool x y = true <-> x < y.
Proof.
  unfold Qlt_bool. rewrite negb_true_iff. split; intro H.
  - apply Qnot_le_lt. intro Hle. apply Qle_bool_iff in Hle. congruence.
  - destruct (Qle_bool y x) eqn:E; [|reflexivity].
    apply Qle_bool_iff in E. exfalso. lra.
Qed.

Lemma Qlt_bool_false_iff (x y : Q) : Qlt_bool x y = false <-> y <= x.
Proof.
  unfold Qlt_bool. rewrite negb_false_iff. apply Qle_bool_iff.
Qed.

(** Truncation keeps the sign. *)
Lemma py_int_pos (q : Q) : (0 < py_int q)%Z -> 0 < q.
Proof.
  unfold py_int. destruct q as [n d]. cbn [Qnum Qden]. intro H.
  unfold Qlt. cbn. destruct (Z_lt_le_dec 0 n) as [Hn|Hn]; [lia|].
  exfalso.
  assert (0 <= (- n) ÷ Z.pos d)%Z by (apply Z.quot_pos; lia).
  rewrite Z.quot_opp_l in H0 by lia. lia.
Qed.

Lemma py_int_neg (q : Q) : (py_int q < 0)%Z -> q < 0.
Proof.
  unfold py_int. destruct q as [n d]. cbn [Qnum Qden]. intro H.
  unfold Qlt. cbn. destruct (Z_lt_le_dec n 0) as [Hn|Hn]; [lia|].
  exfalso.
  assert (0 <= n ÷ Z.pos d)%Z by (apply Z.quot_pos; lia).
  lia.
Qed.

(** A whole number survives the round trip through a float. *)
Lemma py_int_inject_Z (z : Z) : py_int (inject_Z z) = z.
Proof. unfold py_int. cbn. apply Z.quot_1_r. Qed.


End PyNumFacts.
Export PyNumFacts.

(** ** The square root of the examples never undershoots a leg given in
    whole pixels. *)

Module ApproxFacts.
Import Approx.

Lemma hypot_approx_ge_leg (a b : Z) :
  Qabs (inject_Z a) <= hypot_approx (inject_Z a) (inject_Z b).
Proof.
  unfold hypot_approx, sqrt_approx.
  assert (Hs : (0 < scale)%Z) by reflexivity.
  apply Qle_shift_div_l.
  - change 0 with (inject_Z 0). rewrite <- Zlt_Qlt. exact Hs.
  - change (Qabs (inject_Z a)) with (inject_Z (Z.abs a)).
    rewrite <- inject_Z_mult, <- Zle_Qle.
    cbn [Qnum Qden Qplus Qmult inject_Z Pos.mul].
    rewrite Z.div_1_r.
    replace (Z.abs a * scale)%Z with (Z.sqrt ((Z.abs a * scale) * (Z.abs a * scale)))
      by (apply Z.sqrt_square; lia).
    apply Z.sqrt_le_mono. nia.
Qed.

End ApproxFacts.

(** ** The hand gesture controller *)

Module HandFacts.
Import Hand.

(** Frames for the examples: thumb tip, index tip and middle tip. *)
Definition lm_of (thumb index middle : point) : landmarks :=
  fun i =>
    match i with
    | 4%nat => thumb
    | 8%nat => index
    | 12%nat => middle
    | _ => (0, 0)
    end.


(** The scroll reference is kept only while scroll mode is on. *)
Definition coherent (c : ClickController) : Prop :=
  scroll_mode c = false <-> last_y c = None.

Section Controller.

Variable hypot : Q -> Q -> Q.

Lemma update_flag (tp ip : Z * Z) (c : ClickController) :
  down (fst (update hypot tp ip c))
  = Qlt_bool (hypot (inject_Z (fst tp - fst ip)) (inject_Z (snd tp - snd ip)))
             (inject_Z (thresh c))
  /\ thresh (fst (update hypot tp ip c)) = thresh c
  /\ scroll_mode (fst (update hypot tp ip c)) = scroll_mode c
  /\ last_y (fst (update hypot tp ip c)) = last_y c.
Proof. unfold update; cbn. auto. Qed.

Lemma coherent_init : coherent init.
Proof. split; reflexivity. Qed.

Lemma coherent_update (tp ip : Z * Z) (c : ClickController) :
  coherent c -> coherent (fst (update hypot tp ip c)).
Proof. unfold coherent, update; cbn. auto. Qed.

Lemma coherent_right_step (f : right_frame) (c : ClickController) :
  coherent c -> coherent (fst (right_step hypot f c)).
Proof.
  unfold coherent, right_step, update_with_landmarks, update. cbn.
  destruct (Qlt_bool (pinch_distance hypot (rf_landmarks f)) 0.05).
  - destruct (last_y c); cbn; split; intros; discriminate.
  - destruct (scroll_mode c) eqn:E; cbn; [split; reflexivity|auto].
Qed.

(** After a right-hand frame the two flags are what the frame's two
    tests said, whatever the controller held before. *)
Lemma right_step_flags (f : right_frame) (c : ClickController) :
  down (fst (right_step hypot f c)) = pinched hypot f c
  /\ scroll_mode (fst (right_step hypot f c)) = scrolling hypot f
  /\ thresh (fst (right_step hypot f c)) = thresh c.
Proof.
  unfold right_step, update_with_landmarks, update, pinched, scrolling. cbn.
  destruct (Qlt_bool (pinch_distance hypot (rf_landmarks f)) 0.05).
  - destruct (last_y c); cbn; auto.
  - destruct (scroll_mode c) eqn:E; cbn; auto.
Qed.





(** C6 (amended).  A right-hand frame is in scroll mode exactly when the
    index-tip/middle-tip distance is below 0.05.  The first scroll-mode
    frame only records the vertical midpoint and issues no Scroll.  Each
    later one takes [amount = int((y - last) * 100)], truncated toward
    zero, issues the single command [Scroll (- amount)] if and only if
    [|amount| > 1], and records the new midpoint; the amount scrolled has
    the sign opposite to the motion of the midpoint.  A frame out of
    scroll mode issues no Scroll and forgets the midpoint. *)
Theorem scroll_by_truncated_motion (f : right_frame) (c : ClickController) :
  coherent c ->
  let c' := fst (right_step hypot f c) in
  let out := snd (right_step hypot f c) in
  let y := midpoint_y (rf_landmarks f) in
  (scroll_mode c' = scrolling hypot f /\ coherent c') /\
  (scrolling hypot f = false -> filter is_scroll out = [] /\ last_y c' = None) /\
  (scrolling hypot f = true -> scroll_mode c = false ->
     filter is_scroll out = [] /\ last_y c' = Some y) /\
  (scrolling hypot f = true -> scroll_mode c = true ->
     exists last, last_y c = Some last /\
       let amount := scroll_amount y last in
       amount = py_int ((y - last) * 100) /\
       filter is_scroll out
         = (if (1 <? Z.abs amount)%Z then [Scroll (- amount)] else []) /\
       last_y c' = Some y /\
       forall n, In (Scroll n) out ->
         ((n < 0)%Z <-> last < y) /\ ((0 < n)%Z <-> y < last)).
Proof.
  intros Hc. cbv zeta.
  split; [split; [apply right_step_flags | apply coherent_right_step; exact Hc]|].
  unfold right_step, update_with_landmarks, update, scrolling.
  cbn [fst snd down thresh scroll_mode last_y].
  set (b := Qlt_bool _ (inject_Z (thresh c))).
  set (s := Qlt_bool (pinch_distance hypot (rf_landmarks f)) 0.05).
  destruct Hc as [Hc1 Hc2].
  split; [|split].
  - intros Hs; rewrite Hs. split.
    + destruct (scroll_mode c) eqn:E; cbn [fst snd];
        destruct b, (down c); reflexivity.
    + destruct (scroll_mode c) eqn:E; cbn [fst snd last_y]; auto.
  - intros Hs E; rewrite Hs. rewrite (proj1 Hc1 E) || rewrite (Hc1 E).
    split; [|reflexivity]. cbn [fst snd].
    destruct b, (down c); reflexivity.
  - intros Hs E; rewrite Hs. destruct (last_y c) as [last|] eqn:El.
    2:{ assert (scroll_mode c = false) by (apply Hc2; reflexivity). congruence. }
    exists last. split; [reflexivity|].
    cbn [fst snd last_y].
    set (amount := scroll_amount (midpoint_y (rf_landmarks f)) last).
    split; [reflexivity|].
    split; [|split; [reflexivity|]].
    + destruct b, (down c), (1 <? Z.abs amount)%Z; reflexivity.
    + intros n Hn.
      assert (Hn' : (1 < Z.abs amount)%Z /\ n = (- amount)%Z).
      { destruct (1 <? Z.abs amount)%Z eqn:Ea.
        - apply Z.ltb_lt in Ea. split; [exact Ea|].
          destruct b, (down c); cbn in Hn;
            repeat (destruct Hn as [Hn|Hn]; try discriminate);
            try contradiction; congruence.
        - exfalso. destruct b, (down c); cbn in Hn;
            repeat (destruct Hn as [Hn|Hn]; try discriminate);
            try discriminate; contradiction. }
      destruct Hn' as [Ha ->].
      assert (Hp : (0 < amount)%Z -> last < midpoint_y (rf_landmarks f)).
      { intro H. apply py_int_pos in H. lra. }
      assert (Hq : (amount < 0)%Z -> midpoint_y (rf_landmarks f) < last).
      { intro H. apply py_int_neg in H. lra. }
      split; split; intro H.
      * apply Hp. lia.
      * destruct (Z_lt_le_dec 0 amount); [lia|].
        assert (amount < 0)%Z by lia. apply Hq in H0. lra.
      * apply Hq. lia.
      * destruct (Z_lt_le_dec amount 0); [lia|].
        assert (0 < amount)%Z by lia. apply Hp in H0. lra.
Qed.

End Controller.

Section Failsafe.

Variable hypot : Q -> Q -> Q.

(** [np.hypot] on whole pixels is at least as long as its first leg. *)
Hypothesis hypot_ge_leg :
  forall a b : Z, Qabs (inject_Z a) <= hypot (inject_Z a) (inject_Z b).

(** C8.  On a tick that read a frame in which no hand was found, the
    controller is updated with thumb (0,0) and index (9999,9999): the click
    flag is released at the end of the tick whatever it was, and the tick
    issues a MouseUp, and nothing else, exactly when the flag was set. *)
Theorem no_hands_release (cap : capture) (t : HandTracker) :
  ret cap = true ->
  hands cap = [] ->
  (thresh (ctrl t) <= 9999)%Z ->
  exists t',
    _frame hypot cap t = Some (t', if down (ctrl t) then [MouseUp] else [])
    /\ down (ctrl t') = false
    /\ ctrl t' = fst (update hypot (0, 0)%Z (9999, 9999)%Z (ctrl t)).
Proof.
  intros Hret Hhands Hth.
  assert (Hd : Qlt_bool (hypot (inject_Z (0 - 9999)) (inject_Z (0 - 9999)))
                        (inject_Z (thresh (ctrl t))) = false).
  { apply Qlt_bool_false_iff.
    apply Qle_trans with (Qabs (inject_Z (0 - 9999))); [|apply hypot_ge_leg].
    change (Qabs (inject_Z (0 - 9999))) with (inject_Z 9999).
    rewrite <- Zle_Qle. exact Hth. }
  unfold _frame. rewrite Hret, Hhands. cbn [negb each_hand].
  destruct (update hypot (0, 0)%Z (9999, 9999)%Z (ctrl t)) as [c' out2] eqn:Eu.
  exists {| ctrl := c'; screen_w := screen_w t; screen_h := screen_h t |}.
  unfold update in Eu. cbn [fst snd] in Eu. rewrite Hd in Eu.
  injection Eu as <- <-. cbn.
  split; [destruct (down (ctrl t)); reflexivity | split; reflexivity].
Qed.

End Failsafe.

(** *** Examples *)

(** Index and middle tips together, thumb away; then thumb on index with
    the middle tip away. *)
Definition scroll_pose : right_frame :=
  mkRight (0, 0)%Z (100, 100)%Z (lm_of (0, 0) (0.5, 0.5) (0.51, 0.5)).
(** The scroll pose, 0.016 lower in the frame. *)
Definition scroll_pose_lower : right_frame :=
  mkRight (0, 0)%Z (100, 100)%Z (lm_of (0, 0) (0.5, 0.516) (0.51, 0.516)).


(** C6, as stated, fails: in scroll mode the midpoint moves from 0.5 to
    0.516; the rounded amount is 2, beyond 1 in size, and no Scroll is
    issued, because the code truncates 1.6 to 1. *)
Lemma rounded_amount_not_scrolled :
  let c1 := fst (right_step Approx.hypot_approx scroll_pose init) in
  let last := midpoint_y (rf_landmarks scroll_pose) in
  let y := midpoint_y (rf_landmarks scroll_pose_lower) in
  scrolling Approx.hypot_approx scroll_pose_lower = true
  /\ last_y c1 = Some last
  /\ last == 0.5 /\ y == 0.516
  /\ (y - last) * 100 == 1.6
  /\ py_round ((y - last) * 100) = 2%Z
  /\ scroll_amount y last = 1%Z
  /\ snd (right_step Approx.hypot_approx scroll_pose_lower c1) = [].
Proof. vm_compute. repeat split; reflexivity. Qed.

Lemma scroll_by_truncated_motion_witness :
  coherent init
  /\ exists last,
       last_y (fst (right_step Approx.hypot_approx scroll_pose init)) = Some last.
Proof.
  split; [exact coherent_init|].
  pose proof (scroll_by_truncated_motion Approx.hypot_approx
                scroll_pose_lower
                (fst (right_step Approx.hypot_approx scroll_pose init))
                (coherent_right_step Approx.hypot_approx scroll_pose init
                   coherent_init)) as H.
  cbv zeta in H. destruct H as (_ & _ & _ & H).
  destruct (H eq_refl eq_refl) as (last & Hl & _).
  exists last. exact Hl.
Defined.

Lemma no_hands_release_witness :
  exists t',
    _frame Approx.hypot_approx (mkCapture true 480 640 [])
           (mkTracker (mkController true 40 false None) 1920 1080)
    = Some (t', [MouseUp])
    /\ down (ctrl t') = false.
Proof.
  destruct (no_hands_release Approx.hypot_approx ApproxFacts.hypot_approx_ge_leg
              (mkCapture true 480 640 [])
              (mkTracker (mkController true 40 false None) 1920 1080)
              eq_refl eq_refl ltac:(cbn; lia)) as (t' & H1 & H2 & _).
  exists t'. split; [exact H1 | exact H2].
Defined.

End HandFacts.

(** ** The gaze pipeline *)

Module EyeFacts.
Import Eye.

(** What holds of the calibration fields in every state the widget
    reaches from [init] through [_update] and [start_recalib]: the step
    counts the captured points, calibration is complete exactly at five
    points, and the blink buffer holds at most two timestamps. *)
Definition wf (s : State) : Prop :=
  calibration_step s = List.length (calibration_points s)
  /\ (calibration_step s <= 5)%nat
  /\ (calibrated s = true <-> calibration_step s = 5%nat)
  /\ (List.length (blink_times s) <= 2)%nat.

(** The EAR sample of a frame is below the threshold. *)
Definition below (th : Q) (f : face) : bool := Qlt_bool (f_ear f) th.

(** The falling edges of an EAR trace, frame by frame: the timestamp of a
    frame at or above the threshold that follows a sample below it ([prev]
    says whether the sample before the trace was below). *)
Fixpoint falling_edges (th : Q) (prev : bool) (fs : list face) : list (list Q) :=
  match fs with
  | [] => []
  | f :: rest =>
      (if prev && negb (below th f) then [f_now f] else [])
        :: falling_edges th (below th f) rest
  end.

(** A state calibrated on the unit square, and one on the corners of the
    specification's example. *)
Definition calibrated_on (pts : list point) : State :=
  {| calibrated := true; calibration_points := pts; calibration_step := 5;
     is_blinking := false; blink_times := []; last_blink := 0;
     smoothed := None; dwell_ts := 0; last_click := 0 |}.

Definition example_corners : list point :=
  [(0.3, 0.3); (0.7, 0.3); (0.7, 0.7); (0.3, 0.7); (0.5, 0.5)].

Definition unit_corners : list point :=
  [(0, 0); (1, 0); (1, 1); (0, 1); (0.5, 0.5)].

(** *** The gaze mapper *)


Lemma py_min_spec (a b : Q) :
  py_min a b <= a /\ py_min a b <= b /\ (py_min a b == a \/ py_min a b == b).
Proof.
  unfold py_min. destruct (Qlt_bool b a) eqn:E.
  - apply Qlt_bool_iff in E. repeat split; try lra; right; reflexivity.
  - apply Qlt_bool_false_iff in E. repeat split; try lra; left; reflexivity.
Qed.

Lemma py_max_spec (a b : Q) :
  a <= py_max a b /\ b <= py_max a b /\ (py_max a b == a \/ py_max a b == b).
Proof.
  unfold py_max. destruct (Qlt_bool a b) eqn:E.
  - apply Qlt_bool_iff in E. repeat split; try lra; right; reflexivity.
  - apply Qlt_bool_false_iff in E. repeat split; try lra; left; reflexivity.
Qed.

Lemma clamp_spec (lo hi v : Q) :
  lo <= hi ->
  lo <= clamp lo hi v <= hi
  /\ (lo <= v <= hi -> clamp lo hi v == v)
  /\ (v <= lo -> clamp lo hi v == lo)
  /\ (hi <= v -> clamp lo hi v == hi).
Proof.
  intro H. unfold clamp.
  destruct (py_min_spec hi v) as (m1 & m2 & m3).
  destruct (py_max_spec lo (py_min hi v)) as (M1 & M2 & M3).
  repeat split; intros; destruct m3, M3; lra.
Qed.

Lemma py_min_seq_some (l : list Q) : l <> [] -> exists m, py_min_seq l = Some m.
Proof. destruct l; [congruence|]. intros _. eexists; reflexivity. Qed.

Lemma py_max_seq_some (l : list Q) : l <> [] -> exists m, py_max_seq l = Some m.
Proof. destruct l; [congruence|]. intros _. eexists; reflexivity. Qed.

Lemma bounds_some (s : State) :
  calibration_points s <> [] -> exists b, bounds s = Some b.
Proof.
  intro H. unfold bounds.
  destruct (calibration_points s) as [|p l]; [congruence|].
  destruct l as [|p1 [|p2 [|p3 l]]]; cbn; eexists; reflexivity.
Qed.

Lemma axis_ratio_some (lo hi v : Q) : exists r, axis_ratio lo hi v = Some r.
Proof.
  unfold axis_ratio. destruct (Qeq_bool hi lo) eqn:E; cbn [negb].
  - eexists; reflexivity.
  - unfold py_div. destruct (Qeq_bool (hi - lo) 0) eqn:E0.
    + apply Qeq_bool_iff in E0.
      assert (hi == lo) by lra. apply Qeq_bool_iff in H. congruence.
    + eexists; reflexivity.
Qed.

Lemma axis_ratio_degenerate (lo hi v : Q) :
  lo == hi -> axis_ratio lo hi v = Some 0.5.
Proof.
  intro H. unfold axis_ratio.
  assert (E : Qeq_bool hi lo = true) by (apply Qeq_bool_iff; lra).
  rewrite E. reflexivity.
Qed.

Lemma axis_ratio_span (lo hi v : Q) :
  lo < hi -> axis_ratio lo hi v = Some ((clamp lo hi v - lo) / (hi - lo)).
Proof.
  intro H. unfold axis_ratio.
  assert (E : Qeq_bool hi lo = false).
  { destruct (Qeq_bool hi lo) eqn:E; [|reflexivity].
    apply Qeq_bool_iff in E. lra. }
  rewrite E. cbn [negb]. unfold py_div.
  assert (E0 : Qeq_bool (hi - lo) 0 = false).
  { destruct (Qeq_bool (hi - lo) 0) eqn:E0; [|reflexivity].
    apply Qeq_bool_iff in E0. lra. }
  rewrite E0. reflexivity.
Qed.

Lemma py_int_mono (p q : Q) : p <= q -> (py_int p <= py_int q)%Z.
Proof.
  unfold py_int, Qle. destruct p as [a b], q as [c d]. cbn. intro H.
  rewrite <- (Z.quot_mul_cancel_r a (Z.pos b) (Z.pos d)) by discriminate.
  rewrite <- (Z.quot_mul_cancel_r c (Z.pos d) (Z.pos b)) by discriminate.
  rewrite (Z.mul_comm (Z.pos d) (Z.pos b)).
  apply Z.quot_le_mono; lia.
Qed.







(** The mapper returns whenever there is a calibration point. *)
Lemma map_returns (sw sh : Z) (s : State) (ix iy : Q) :
  calibration_points s <> [] ->
  exists rx ry,
    gaze_ratio s ix iy = Some (rx, ry)
    /\ _map sw sh s ix iy
       = Some (py_int (rx * inject_Z (sw - 1)), py_int (ry * inject_Z (sh - 1))).
Proof.
  intro Hne.
  destruct (bounds_some s Hne) as ([[[minx maxx] miny] maxy] & Hb).
  destruct (axis_ratio_some minx maxx ix) as (rx & Hrx).
  destruct (axis_ratio_some miny maxy iy) as (ry & Hry).
  exists rx, ry.
  assert (Hg : gaze_ratio s ix iy = Some (rx, ry)).
  { unfold gaze_ratio. rewrite Hb, Hrx, Hry. reflexivity. }
  split; [exact Hg|]. unfold _map. rewrite Hg. reflexivity.
Qed.

(** C9.  Whenever there is a calibration point to take bounds from, and so
    in every calibrated state, the mapper returns: it never divides by a
    zero span.  When the first four points have [minx == maxx] the
    horizontal ratio is 0.5, and when [miny == maxy] the vertical ratio is
    0.5. *)
Theorem degenerate_span_ratio (sw sh : Z) (s : State) (ix iy : Q) :
  calibration_points s <> [] ->
  exists minx maxx miny maxy rx ry,
    bounds s = Some (minx, maxx, miny, maxy)
    /\ gaze_ratio s ix iy = Some (rx, ry)
    /\ _map sw sh s ix iy
       = Some (py_int (rx * inject_Z (sw - 1)), py_int (ry * inject_Z (sh - 1)))
    /\ (minx == maxx -> rx = 0.5)
    /\ (miny == maxy -> ry = 0.5).
Proof.
  intro Hne.
  destruct (bounds_some s Hne) as ([[[minx maxx] miny] maxy] & Hb).
  destruct (axis_ratio_some minx maxx ix) as (rx & Hrx).
  destruct (axis_ratio_some miny maxy iy) as (ry & Hry).
  exists minx, maxx, miny, maxy, rx, ry.
  assert (Hg : gaze_ratio s ix iy = Some (rx, ry)).
  { unfold gaze_ratio. rewrite Hb, Hrx, Hry. reflexivity. }
  split; [exact Hb|]. split; [exact Hg|].
  split; [unfold _map; rewrite Hg; reflexivity|].
  split; intro H.
  - rewrite (axis_ratio_degenerate _ _ ix H) in Hrx. congruence.
  - rewrite (axis_ratio_degenerate _ _ iy H) in Hry. congruence.
Qed.


Lemma degenerate_span_ratio_witness :
  exists rx ry,
    gaze_ratio (calibrated_on [(0.4, 0.3); (0.4, 0.7); (0.4, 0.5); (0.4, 0.6); (0.4, 0.5)])
               0.9 0.5 = Some (rx, ry)
    /\ rx = 0.5.
Proof.
  destruct (degenerate_span_ratio 1920 1080
              (calibrated_on [(0.4, 0.3); (0.4, 0.7); (0.4, 0.5); (0.4, 0.6); (0.4, 0.5)])
              0.9 0.5 ltac:(discriminate))
    as (minx & maxx & miny & maxy & rx & ry & Hb & Hg & _ & Hx & _).
  exists rx, ry. split; [exact Hg|].
  apply Hx. vm_compute in Hb. injection Hb as <- <- <- <-. reflexivity.
Defined.


(** *** Blink detection and calibration, frame by frame *)

(** The timestamp before the newest in the blink buffer, and the test that
    makes a blink at [now] the second of a double blink. *)
Definition prev_blink (s : State) : option Q := hd_error (rev (blink_times s)).

Definition double_blink (cfg : Settings) (now : Q) (s : State) : bool :=
  match prev_blink s with
  | Some p => Qlt_bool (now - p) (double_window cfg)
  | None => false
  end.

(** The frame finds the eye open again after a blink. *)
Definition falling_edge (cfg : Settings) (f : face) (s : State) : bool :=
  is_blinking s && Qle_bool (blink_thresh cfg) (f_ear f).

Definition completes (out : list event) : nat :=
  List.length (filter is_complete out).

Section Widget.

Variables sw sh : Z.
Variable pow_half : Q -> Q.
Variable cfg : Settings.

Lemma wf_init : wf init.
Proof. unfold wf; cbn. repeat split; try lia; discriminate. Qed.

Lemma wf_start_recalib (s : State) : wf s -> wf (fst (start_recalib s)).
Proof.
  unfold wf; cbn. intros (_ & _ & _ & H).
  repeat split; try lia; try discriminate; exact H.
Qed.

Lemma wf_points (s : State) :
  wf s -> calibrated s = true -> calibration_points s <> [].
Proof.
  intros (H1 & _ & H3 & _) Hc. apply H3 in Hc. rewrite Hc in H1.
  destruct (calibration_points s); [discriminate | congruence].
Qed.

(** The buffer after the append and the trim of l.132-134. *)
Lemma trimmed_buffer (s : State) (now : Q) :
  (List.length (blink_times s) <= 2)%nat ->
  (if (2 <? List.length (blink_times s ++ [now]))%nat
   then tl (blink_times s ++ [now]) else blink_times s ++ [now])
  = match prev_blink s with
    | None => [now]
    | Some p => [p; now]
    end.
Proof.
  unfold prev_blink. intro H.
  destruct (blink_times s) as [|a [|b [|c l]]]; cbn in *; try reflexivity; lia.
Qed.

(** [on_blink] before calibration is complete (l.130-146). *)
Lemma on_blink_uncalibrated (iris : point) (now : Q) (s : State) :
  calibrated s = false ->
  (List.length (blink_times s) <= 2)%nat ->
  let s' := fst (on_blink cfg iris now s) in
  let out := snd (on_blink cfg iris now s) in
  is_blinking s' = is_blinking s /\ last_blink s' = last_blink s
  /\ smoothed s' = smoothed s /\ dwell_ts s' = dwell_ts s
  /\ last_click s' = last_click s
  /\ blink_stamps out = [] /\ filter is_pointer_click out = []
  /\ if double_blink cfg now s then
       blink_times s' = []
       /\ calibration_points s' = calibration_points s ++ [iris]
       /\ calibration_step s' = S (calibration_step s)
       /\ calibrated s' = negb (S (calibration_step s) <? 5)%nat
       /\ completes out = (if (S (calibration_step s) <? 5)%nat then 0 else 1)%nat
     else
       blink_times s' = match prev_blink s with
                        | None => [now]
                        | Some p => [p; now]
                        end
       /\ calibration_points s' = calibration_points s
       /\ calibration_step s' = calibration_step s
       /\ calibrated s' = false
       /\ completes out = 0%nat.
Proof.
  intros Hc Hl. cbv zeta. unfold on_blink. rewrite Hc. cbn [negb].
  rewrite (trimmed_buffer s now Hl). unfold double_blink.
  destruct (prev_blink s) as [p|]; cbn [List.length Nat.eqb nth andb].
  - destruct (Qlt_bool (now - p) (double_window cfg)).
    + cbn [capture_point set_blink_times calibration_step].
      change (List.length instructions) with 5%nat.
      destruct (S (calibration_step s) <? 5)%nat; cbn; rewrite ?Hc; repeat split.
    + cbn. rewrite Hc. repeat split.
  - cbn. rewrite Hc. repeat split.
Qed.

(** [on_blink] once calibrated (l.147-149). *)
Lemma on_blink_calibrated (iris : point) (now : Q) (s : State) :
  calibrated s = true -> on_blink cfg iris now s = (s, [Pointer Click]).
Proof. intro Hc. unfold on_blink. rewrite Hc. reflexivity. Qed.

(** The three cases of the blink detector (l.124-128).  On rationals the
    second test is the negation of [ear < blink_thresh]. *)
Lemma blink_edge_cases (ear : Q) (iris : point) (now : Q) (s : State) :
  blink_edge cfg ear iris now s =
    if Qlt_bool ear (blink_thresh cfg) then
      (if is_blinking s then s else set_is_blinking true s, [])
    else if is_blinking s then
      (fst (on_blink cfg iris now (set_last_blink now (set_is_blinking false s))),
       BlinkEvent now
         :: snd (on_blink cfg iris now (set_last_blink now (set_is_blinking false s))))
    else (s, []).
Proof.
  unfold blink_edge.
  destruct (Qlt_bool ear (blink_thresh cfg)) eqn:E; cbn [andb].
  - destruct (is_blinking s); cbn [negb]; [|reflexivity].
    apply Qlt_bool_iff in E.
    destruct (Qle_bool (blink_thresh cfg) ear) eqn:E'; [|reflexivity].
    apply Qle_bool_iff in E'. exfalso. lra.
  - apply Qlt_bool_false_iff in E. apply Qle_bool_iff in E. rewrite E.
    cbn [andb]. destruct (is_blinking s); [|reflexivity].
    destruct (on_blink cfg iris now _); reflexivity.
Qed.

(** Fields the blink phase and the gaze phase leave alone. *)
Definition same_gaze_fields (s s' : State) : Prop :=
  smoothed s' = smoothed s /\ dwell_ts s' = dwell_ts s
  /\ last_click s' = last_click s.

Definition same_blink_fields (s s' : State) : Prop :=
  calibrated s' = calibrated s
  /\ calibration_points s' = calibration_points s
  /\ calibration_step s' = calibration_step s
  /\ is_blinking s' = is_blinking s
  /\ blink_times s' = blink_times s
  /\ last_blink s' = last_blink s.

Lemma wf_on_blink (iris : point) (now : Q) (s : State) :
  wf s -> wf (fst (on_blink cfg iris now s)).
Proof.
  intros Hwf. destruct (calibrated s) eqn:Hc.
  - rewrite (on_blink_calibrated iris now s Hc). exact Hwf.
  - destruct Hwf as (H1 & H2 & H3 & H4).
    pose proof (on_blink_uncalibrated iris now s Hc H4) as H.
    cbv zeta in H. destruct H as (_ & _ & _ & _ & _ & _ & _ & H).
    assert (Hlt : (calibration_step s < 5)%nat).
    { destruct (Nat.eq_dec (calibration_step s) 5) as [E|E]; [|lia].
      apply H3 in E. congruence. }
    unfold wf. destruct (double_blink cfg now s).
    + destruct H as (B1 & B2 & B3 & B4 & _).
      rewrite B1, B2, B3, B4, length_app. cbn [List.length].
      repeat split; try lia.
      * destruct (S (calibration_step s) <? 5)%nat eqn:E; cbn; [discriminate|].
        apply Nat.ltb_ge in E. lia.
      * intro E. destruct (S (calibration_step s) <? 5)%nat eqn:E'; [|reflexivity].
        apply Nat.ltb_lt in E'. lia.
    + destruct H as (B1 & B2 & B3 & B4 & _).
      rewrite B1, B2, B3, B4.
      repeat split; try lia; try congruence.
      destruct (prev_blink s); cbn; lia.
Qed.

Lemma wf_set_blink (b : bool) (t : Q) (s : State) :
  wf s -> wf (set_last_blink t (set_is_blinking b s)).
Proof. unfold wf; cbn. auto. Qed.

(** What the blink phase of a frame does (l.124-149). *)
Lemma blink_edge_effect (f : face) (s : State) :
  let s1 := fst (blink_edge cfg (f_ear f) (f_iris f) (f_now f) s) in
  let out := snd (blink_edge cfg (f_ear f) (f_iris f) (f_now f) s) in
  is_blinking s1 = below (blink_thresh cfg) f
  /\ same_gaze_fields s s1
  /\ blink_stamps out = (if falling_edge cfg f s then [f_now f] else [])
  /\ (wf s -> wf s1)
  /\ (falling_edge cfg f s = false ->
      out = [] /\ calibrated s1 = calibrated s
      /\ calibration_points s1 = calibration_points s
      /\ calibration_step s1 = calibration_step s
      /\ blink_times s1 = blink_times s /\ last_blink s1 = last_blink s)
  /\ (falling_edge cfg f s = true ->
      last_blink s1 = f_now f
      /\ s1 = fst (on_blink cfg (f_iris f) (f_now f)
                     (set_last_blink (f_now f) (set_is_blinking false s)))
      /\ out = BlinkEvent (f_now f)
                 :: snd (on_blink cfg (f_iris f) (f_now f)
                           (set_last_blink (f_now f) (set_is_blinking false s)))).
Proof.
  cbv zeta. rewrite blink_edge_cases. unfold falling_edge, below.
  destruct (Qlt_bool (f_ear f) (blink_thresh cfg)) eqn:E.
  - assert (E' : Qle_bool (blink_thresh cfg) (f_ear f) = false).
    { apply Qlt_bool_iff in E.
      destruct (Qle_bool (blink_thresh cfg) (f_ear f)) eqn:E'; [|reflexivity].
      apply Qle_bool_iff in E'. exfalso. lra. }
    rewrite E', andb_false_r.
    destruct (is_blinking s) eqn:Hb; cbn; unfold same_gaze_fields;
      repeat split; auto; try easy; unfold wf in *; cbn; tauto.
  - assert (E' : Qle_bool (blink_thresh cfg) (f_ear f) = true).
    { apply Qle_bool_iff. apply Qlt_bool_false_iff in E. exact E. }
    rewrite E', andb_true_r.
    destruct (is_blinking s) eqn:Hb; cbn [fst snd].
    2:{ unfold same_gaze_fields. repeat split; auto; try easy; unfold wf in *; cbn; tauto. }
    set (s0 := set_last_blink (f_now f) (set_is_blinking false s)).
    destruct (calibrated s) eqn:Hc.
    + rewrite (on_blink_calibrated (f_iris f) (f_now f) s0) by exact Hc.
      cbn. unfold same_gaze_fields. repeat split; auto; try easy; unfold wf in *; cbn; tauto.
    + assert (Hc0 : calibrated s0 = false) by exact Hc.
      split; [|split; [|split; [|split; [|split]]]].
      * unfold on_blink. rewrite Hc0. cbn [negb].
        repeat match goal with
        | |- context [if ?b then _ else _] => destruct b
        end; reflexivity.
      * unfold same_gaze_fields, on_blink. rewrite Hc0. cbn [negb].
        repeat match goal with
        | |- context [if ?b then _ else _] => destruct b
        end; repeat split.
      * cbn [blink_stamps]. f_equal.
        unfold on_blink. rewrite Hc0. cbn [negb].
        repeat match goal with
        | |- context [if ?b then _ else _] => destruct b
        end; reflexivity.
      * intro Hwf. apply wf_on_blink. apply wf_set_blink. exact Hwf.
      * discriminate.
      * intros _. split; [|split; reflexivity].
        unfold on_blink. rewrite Hc0. cbn [negb].
        repeat match goal with
        | |- context [if ?b then _ else _] => destruct b
        end; reflexivity.
Qed.

(** The gaze phase (l.152-170) returns whenever the state is calibrated
    only with points captured, and writes none of the blink fields. *)
Lemma gaze_effect (iris : point) (now : Q) (s : State) :
  wf s ->
  exists s' out,
    gaze sw sh pow_half cfg iris now s = Some (s', out)
    /\ same_blink_fields s s'
    /\ blink_stamps out = [] /\ completes out = 0%nat
    /\ (gaze_active cfg now s = false -> s' = s /\ out = []).
Proof.
  intro Hwf. unfold gaze.
  destruct (gaze_active cfg now s) eqn:Ha.
  2:{ exists s, []. unfold same_blink_fields. repeat split. }
  assert (Hc : calibrated s = true).
  { unfold gaze_active in Ha. apply andb_prop in Ha. tauto. }
  destruct (map_returns sw sh s (fst iris) (snd iris)
              (wf_points s Hwf Hc))
    as (rx & ry & _ & Hm).
  rewrite Hm.
  destruct (smoothed s) as [from|].
  - repeat match goal with
    | |- context [if ?b then _ else _] => destruct b
    end; eexists; eexists; (split; [reflexivity|]);
    unfold same_blink_fields; repeat split; discriminate.
  - eexists; eexists; (split; [reflexivity|]);
    unfold same_blink_fields; repeat split; discriminate.
Qed.

Lemma wf_same_blink_fields (s s' : State) :
  same_blink_fields s s' -> wf s -> wf s'.
Proof.
  unfold same_blink_fields, wf.
  intros (-> & -> & -> & _ & -> & _). auto.
Qed.

(** Right after a blink the gaze phase is skipped. *)
Lemma gaze_skipped_after_blink (now : Q) (s : State) :
  0 <= ignore_after_blink cfg -> last_blink s = now ->
  gaze_active cfg now s = false.
Proof.
  intros Hi Hl. unfold gaze_active. rewrite Hl.
  replace (Qlt_bool (ignore_after_blink cfg) (now - now)) with false.
  - apply andb_false_r.
  - symmetry. apply Qlt_bool_false_iff. lra.
Qed.

(** A frame with a face always returns, and keeps [wf]. *)
Lemma update_face_total (f : face) (s : State) :
  wf s ->
  exists s' out2,
    update_face sw sh pow_half cfg f s
    = Some (s', snd (blink_edge cfg (f_ear f) (f_iris f) (f_now f) s) ++ out2)
    /\ gaze sw sh pow_half cfg (f_iris f) (f_now f)
         (fst (blink_edge cfg (f_ear f) (f_iris f) (f_now f) s))
       = Some (s', out2)
    /\ wf s'.
Proof.
  intro Hwf. unfold update_face.
  pose proof (blink_edge_effect f s) as He. cbv zeta in He.
  destruct (blink_edge cfg (f_ear f) (f_iris f) (f_now f) s) as [s1 out1].
  cbn [fst snd] in *.
  destruct He as (_ & _ & _ & Hwf1 & _).
  destruct (gaze_effect (f_iris f) (f_now f) s1 (Hwf1 Hwf))
    as (s2 & out2 & Hg & Hsame & _).
  exists s2, out2. rewrite Hg.
  split; [reflexivity|]. split; [reflexivity|].
  apply (wf_same_blink_fields s1); auto.
Qed.


Lemma blink_stamps_app (a b : list event) :
  blink_stamps (a ++ b) = blink_stamps a ++ blink_stamps b.
Proof.
  induction a as [|e a IH]; [reflexivity|].
  destruct e; cbn; rewrite ?IH; reflexivity.
Qed.

Lemma completes_app (a b : list event) :
  completes (a ++ b) = (completes a + completes b)%nat.
Proof. unfold completes. rewrite filter_app, length_app. reflexivity. Qed.

(** A frame seen from outside: the blink phase decides the blink fields
    and the blink events, the gaze phase the rest. *)
Lemma update_face_blink (f : face) (s : State) :
  wf s ->
  exists s' out,
    update_face sw sh pow_half cfg f s = Some (s', out)
    /\ wf s'
    /\ same_blink_fields
         (fst (blink_edge cfg (f_ear f) (f_iris f) (f_now f) s)) s'
    /\ is_blinking s' = below (blink_thresh cfg) f
    /\ blink_stamps out = (if falling_edge cfg f s then [f_now f] else [])
    /\ completes out
       = completes (snd (blink_edge cfg (f_ear f) (f_iris f) (f_now f) s)).
Proof.
  intro Hwf.
  destruct (update_face_total f s Hwf) as (s' & out2 & Hu & Hg & Hwf').
  pose proof (blink_edge_effect f s) as He. cbv zeta in He.
  destruct He as (Hb & _ & Hst & Hwf1 & _).
  destruct (gaze_effect (f_iris f) (f_now f) _ (Hwf1 Hwf))
    as (s2 & o2 & Hg2 & Hsame & Hs2 & Hc2 & _).
  rewrite Hg in Hg2. injection Hg2 as <- <-.
  exists s'. eexists. split; [exact Hu|]. split; [exact Hwf'|].
  split; [exact Hsame|].
  split; [destruct Hsame as (_ & _ & _ & -> & _); exact Hb|].
  split.
  - rewrite blink_stamps_app, Hs2, app_nil_r. exact Hst.
  - rewrite completes_app, Hc2. lia.
Qed.

Lemma run_blink_stamps (fs : list face) (s : State) :
  wf s ->
  exists s' outs,
    run sw sh pow_half cfg fs s = Some (s', outs)
    /\ map blink_stamps outs
       = falling_edges (blink_thresh cfg) (is_blinking s) fs.
Proof.
  revert s. induction fs as [|f rest IH]; intros s Hwf.
  - exists s, []. split; reflexivity.
  - destruct (update_face_blink f s Hwf)
      as (s1 & out & Hu & Hwf1 & _ & Hb & Hst & _).
    destruct (IH s1 Hwf1) as (s2 & outs & Hr & Hm).
    exists s2, (out :: outs). cbn [run]. rewrite Hu, Hr.
    split; [reflexivity|].
    cbn [map falling_edges]. rewrite Hm, Hst, Hb. f_equal.
    unfold falling_edge, below, Qlt_bool. rewrite negb_involutive. reflexivity.
Qed.

End Widget.

(** [_update] is [update_face] on the first face of the tick; a tick
    without a frame or without a face changes nothing and issues nothing. *)
Lemma _update_cases (sw sh : Z) (pow_half : Q -> Q) (norm2 : Q -> Q -> Q)
  (cfg : Settings) (c : capture) (s : State) :
  _update sw sh pow_half norm2 cfg c s
  = match ret c, faces c with
    | true, lm :: _ =>
        update_face sw sh pow_half cfg (face_of norm2 lm (now c)) s
    | _, _ => Some (s, [])
    end.
Proof. unfold _update. destruct (ret c), (faces c); reflexivity. Qed.

(** C1.  A frame leaves the detector BLINKING exactly when its EAR is
    below the threshold, so NOT_BLINKING moves to BLINKING on
    [EAR < threshold] and BLINKING to NOT_BLINKING on [EAR >= threshold].
    The frame raises a blink event, stamped with its own time, exactly when
    it makes the second move, and raises none otherwise; over any EAR trace
    the events are the falling edges of the trace, one per frame that is at
    or above the threshold right after a sample below it.  The trace
    0.25, 0.15, 0.15, 0.25 at times 0, 1, 2, 3 with threshold 0.21 raises
    one blink event, at time 3. *)
Theorem blink_on_falling_edge (sw sh : Z) (pow_half : Q -> Q) (cfg : Settings) :
  (forall (f : face) (s : State),
     wf s ->
     exists s' out,
       update_face sw sh pow_half cfg f s = Some (s', out)
       /\ is_blinking s' = Qlt_bool (f_ear f) (blink_thresh cfg)
       /\ blink_stamps out
          = (if is_blinking s && Qle_bool (blink_thresh cfg) (f_ear f)
             then [f_now f] else []))
  /\ (forall (fs : list face) (s : State),
        wf s ->
        exists s' outs,
          run sw sh pow_half cfg fs s = Some (s', outs)
          /\ map blink_stamps outs
             = falling_edges (blink_thresh cfg) (is_blinking s) fs)
  /\ (forall iris : point,
        blink_thresh default_settings = 0.21
        /\ exists s',
             run sw sh pow_half default_settings
               [mkFace 0.25 iris 0; mkFace 0.15 iris 1;
                mkFace 0.15 iris 2; mkFace 0.25 iris 3] init
             = Some (s', [[]; []; []; [BlinkEvent 3]])).
Proof.
  split; [|split].
  - intros f s Hwf.
    destruct (update_face_blink sw sh pow_half cfg f s Hwf)
      as (s' & out & Hu & _ & _ & Hb & Hst & _).
    exists s', out. auto.
  - intros fs s Hwf. apply run_blink_stamps. exact Hwf.
  - intros iris. split; [reflexivity|]. eexists. vm_compute. reflexivity.
Qed.

(** *** Calibration by double blinks *)



(** All the [CalibrationComplete] signals of a run. *)
Definition total_completes (outs : list (list event)) : nat :=
  list_sum (map completes outs).

Section Calibration.

Variables sw sh : Z.
Variable pow_half : Q -> Q.
Variable cfg : Settings.



(** A frame before calibration is complete. *)
Lemma update_face_calibrating (f : face) (s : State) :
  wf s ->
  calibrated s = false ->
  exists s' out,
    update_face sw sh pow_half cfg f s = Some (s', out)
    /\ wf s'
    /\ is_blinking s' = below (blink_thresh cfg) f
    /\ blink_stamps out = (if falling_edge cfg f s then [f_now f] else [])
    /\ if falling_edge cfg f s then
         if double_blink cfg (f_now f) s then
           blink_times s' = []
           /\ calibration_points s' = calibration_points s ++ [f_iris f]
           /\ calibration_step s' = S (calibration_step s)
           /\ calibrated s' = negb (S (calibration_step s) <? 5)%nat
           /\ completes out = (if (S (calibration_step s) <? 5)%nat then 0 else 1)%nat
         else
           blink_times s' = match prev_blink s with
                            | None => [f_now f]
                            | Some p => [p; f_now f]
                            end
           /\ calibration_points s' = calibration_points s
           /\ calibration_step s' = calibration_step s
           /\ calibrated s' = false
           /\ completes out = 0%nat
       else
         blink_times s' = blink_times s
         /\ calibration_points s' = calibration_points s
         /\ calibration_step s' = calibration_step s
         /\ calibrated s' = false
         /\ completes out = 0%nat.
Proof.
  intros Hwf Hc.
  destruct (update_face_blink sw sh pow_half cfg f s Hwf)
    as (s' & out & Hu & Hwf' & Hsame & Hb & Hst & Hco).
  exists s', out.
  split; [exact Hu|]. split; [exact Hwf'|]. split; [exact Hb|].
  split; [exact Hst|].
  pose proof (blink_edge_effect cfg f s) as He. cbv zeta in He.
  destruct He as (_ & _ & _ & _ & Hno & Hyes).
  destruct Hsame as (S1 & S2 & S3 & _ & S5 & _).
  rewrite S1, S2, S3, S5, Hco.
  destruct (falling_edge cfg f s) eqn:Hfe.
  - destruct (Hyes eq_refl) as (_ & -> & ->).
    set (s0 := set_last_blink (f_now f) (set_is_blinking false s)).
    assert (Hl : (List.length (blink_times s0) <= 2)%nat) by apply Hwf.
    pose proof (on_blink_uncalibrated cfg (f_iris f) (f_now f) s0 Hc Hl) as H.
    cbv zeta in H. destruct H as (_ & _ & _ & _ & _ & _ & _ & H).
    change (double_blink cfg (f_now f) s0) with (double_blink cfg (f_now f) s) in H.
    change (prev_blink s0) with (prev_blink s) in H.
    unfold completes in *. cbn [filter is_complete snd].
    exact H.
  - destruct (Hno eq_refl) as (-> & -> & -> & -> & -> & _).
    repeat split. exact Hc.
Qed.

(** A frame once calibration is complete. *)
Lemma update_face_calibrated (f : face) (s : State) :
  wf s ->
  calibrated s = true ->
  exists s' out,
    update_face sw sh pow_half cfg f s = Some (s', out)
    /\ wf s'
    /\ calibrated s' = true
    /\ calibration_points s' = calibration_points s
    /\ calibration_step s' = calibration_step s
    /\ blink_times s' = blink_times s
    /\ completes out = 0%nat
    /\ (falling_edge cfg f s = true ->
        0 <= ignore_after_blink cfg ->
        s' = set_last_blink (f_now f) (set_is_blinking false s)
        /\ out = [BlinkEvent (f_now f); Pointer Click]).
Proof.
  intros Hwf Hc.
  destruct (update_face_total sw sh pow_half cfg f s Hwf)
    as (s' & out2 & Hu & Hg & Hwf').
  pose proof (blink_edge_effect cfg f s) as He. cbv zeta in He.
  destruct He as (_ & _ & _ & Hwf1 & Hno & Hyes).
  destruct (gaze_effect sw sh pow_half cfg (f_iris f) (f_now f) _ (Hwf1 Hwf))
    as (s2 & o2 & Hg2 & Hsame & _ & Hc2 & Hskip).
  rewrite Hg in Hg2. injection Hg2 as <- <-.
  destruct Hsame as (S1 & S2 & S3 & _ & S5 & _).
  exists s'. eexists. split; [exact Hu|]. split; [exact Hwf'|].
  rewrite S1, S2, S3, S5, completes_app, Hc2.
  destruct (falling_edge cfg f s) eqn:Hfe.
  - destruct (Hyes eq_refl) as (Hlb & Hs1 & Ho1).
    rewrite on_blink_calibrated in Hs1, Ho1 by exact Hc.
    cbn [fst snd] in Hs1, Ho1. rewrite Hs1, Ho1.
    repeat split; try exact Hc.
    + rewrite Hs1 in Hskip.
      destruct Hskip as [E _]; [|exact E].
      apply gaze_skipped_after_blink; [assumption | reflexivity].
    + rewrite Hs1 in Hskip.
      destruct Hskip as [_ E]; [|rewrite E; reflexivity].
      apply gaze_skipped_after_blink; [assumption | reflexivity].
  - destruct (Hno eq_refl) as (-> & -> & -> & -> & -> & _).
    repeat split; try exact Hc; discriminate.
Qed.

(** The completion signal of one frame. *)
Lemma update_face_completes (f : face) (s : State) :
  wf s ->
  exists s' out,
    update_face sw sh pow_half cfg f s = Some (s', out)
    /\ wf s'
    /\ (completes out <= 1)%nat
    /\ (completes out = 1%nat
        <-> List.length (calibration_points s) = 4%nat
            /\ List.length (calibration_points s') = 5%nat)
    /\ (completes out = 1%nat
        <-> calibrated s = false /\ calibrated s' = true)
    /\ (calibrated s = true ->
        calibrated s' = true
        /\ calibration_points s' = calibration_points s
        /\ calibration_step s' = calibration_step s
        /\ completes out = 0%nat).
Proof.
  intro Hwf. destruct (calibrated s) eqn:Hc.
  - destruct (update_face_calibrated f s Hwf Hc)
      as (s' & out & Hu & Hwf' & C1 & C2 & C3 & _ & C5 & _).
    exists s', out. split; [exact Hu|]. split; [exact Hwf'|].
    rewrite C1, C2, C5. repeat split; try lia; try easy.
  - destruct (update_face_calibrating f s Hwf Hc)
      as (s' & out & Hu & Hwf' & _ & _ & H).
    exists s', out. split; [exact Hu|]. split; [exact Hwf'|].
    destruct Hwf as (W1 & W2 & W3 & _).
    assert (Hlt : (calibration_step s < 5)%nat).
    { destruct (Nat.eq_dec (calibration_step s) 5) as [E|E]; [|lia].
      apply W3 in E. congruence. }
    destruct (falling_edge cfg f s); [destruct (double_blink cfg (f_now f) s)|];
      destruct H as (_ & -> & _ & -> & ->).
    + rewrite length_app. cbn [List.length].
      destruct (S (calibration_step s) <? 5)%nat eqn:E;
        [apply Nat.ltb_lt in E | apply Nat.ltb_ge in E]; cbn [negb];
        repeat split; try lia; try easy.
    + repeat split; try lia; try easy.
    + repeat split; try lia; try easy.
Qed.

Lemma run_completes (fs : list face) (s : State) :
  wf s ->
  exists s' outs,
    run sw sh pow_half cfg fs s = Some (s', outs)
    /\ wf s'
    /\ total_completes outs
       = (if calibrated s then 0 else if calibrated s' then 1 else 0)%nat
    /\ (calibrated s = true ->
        calibrated s' = true /\ calibration_points s' = calibration_points s).
Proof.
  revert s. induction fs as [|f rest IH]; intros s Hwf.
  - exists s, []. split; [reflexivity|]. split; [exact Hwf|].
    split; [|auto]. cbn. destruct (calibrated s); reflexivity.
  - destruct (update_face_completes f s Hwf)
      as (s1 & out & Hu & Hwf1 & Hle & _ & Hiff & Hcal).
    destruct (IH s1 Hwf1) as (s2 & outs & Hr & Hwf2 & Ht & Hkeep).
    exists s2, (out :: outs). cbn [run]. rewrite Hu, Hr.
    split; [reflexivity|]. split; [exact Hwf2|].
    unfold total_completes in *.
    change (list_sum (map completes (out :: outs)))
      with (completes out + list_sum (map completes outs))%nat.
    rewrite Ht.
    destruct (calibrated s) eqn:Hc.
    + destruct (Hcal eq_refl) as (C1 & C2 & _ & C4). rewrite C1, C4.
      split; [reflexivity|]. intros _.
      destruct (Hkeep C1) as (K1 & K2). split; [exact K1 | congruence].
    + split; [|discriminate].
      destruct (calibrated s1) eqn:Hc1.
      * destruct (Hkeep eq_refl) as (K1 & _). rewrite K1.
        assert (completes out = 1%nat) by (apply Hiff; auto). lia.
      * assert (completes out <> 1%nat) by (intro E; apply Hiff in E; easy).
        destruct (calibrated s2); lia.
Qed.

End Calibration.


(** C5.  A frame fires [calibration_complete] at most once, and exactly
    when it captures the fifth calibration point, which is also exactly
    when it takes the state from not calibrated to calibrated.  Once
    calibrated, a frame captures no point and fires no signal.  Over any
    run of frames without a re-calibration the signal fires once if the run
    starts uncalibrated and ends calibrated, and never otherwise. *)
Theorem fifth_point_completes (sw sh : Z) (pow_half : Q -> Q) (cfg : Settings) :
  (forall (f : face) (s : State),
     wf s ->
     exists s' out,
       update_face sw sh pow_half cfg f s = Some (s', out)
       /\ wf s'
       /\ (completes out <= 1)%nat
       /\ (completes out = 1%nat
           <-> List.length (calibration_points s) = 4%nat
               /\ List.length (calibration_points s') = 5%nat)
       /\ (completes out = 1%nat
           <-> calibrated s = false /\ calibrated s' = true)
       /\ (calibrated s = true ->
           calibrated s' = true
           /\ calibration_points s' = calibration_points s
           /\ calibration_step s' = calibration_step s
           /\ completes out = 0%nat))
  /\ (forall (fs : list face) (s : State),
        wf s ->
        exists s' outs,
          run sw sh pow_half cfg fs s = Some (s', outs)
          /\ wf s'
          /\ total_completes outs
             = (if calibrated s then 0 else if calibrated s' then 1 else 0)%nat
          /\ (calibrated s' = true
              <-> List.length (calibration_points s') = 5%nat)
          /\ (calibrated s = true ->
              calibrated s' = true
              /\ calibration_points s' = calibration_points s))
  /\ wf init
  /\ (forall s, wf s -> wf (fst (start_recalib s))).
Proof.
  split; [|split; [|split]].
  - intros f s Hwf. apply update_face_completes. exact Hwf.
  - intros fs s Hwf.
    destruct (run_completes sw sh pow_half cfg fs s Hwf)
      as (s' & outs & Hr & Hwf' & Ht & Hk).
    exists s', outs. split; [exact Hr|]. split; [exact Hwf'|].
    split; [exact Ht|]. split; [|exact Hk].
    destruct Hwf' as (W1 & _ & W3 & _). rewrite <- W1. exact W3.
  - apply wf_init.
  - apply wf_start_recalib.
Qed.

(** C10.  In a calibrated state, a frame that finds the eye open again
    after a blink issues a Click at once, whatever the smoothed position
    and the dwell timer are, and leaves the smoothed position, the dwell
    timer and the last-click time as they were.  So clicks can follow each
    other faster than the dwell duration: with the default settings two
    blinks give two clicks 0.2 s apart. *)
Theorem blink_click_when_calibrated (sw sh : Z) (pow_half : Q -> Q)
  (cfg : Settings) :
  (forall (f : face) (s : State),
     wf s ->
     calibrated s = true ->
     0 <= ignore_after_blink cfg ->
     is_blinking s = true ->
     blink_thresh cfg <= f_ear f ->
     exists s',
       update_face sw sh pow_half cfg f s
       = Some (s', [BlinkEvent (f_now f); Pointer Click])
       /\ smoothed s' = smoothed s
       /\ dwell_ts s' = dwell_ts s
       /\ last_click s' = last_click s
       /\ last_blink s' = f_now f
       /\ is_blinking s' = false)
  /\ (exists s',
        run sw sh pow_half default_settings
          [mkFace 0.1 (0.5, 0.5) 10; mkFace 0.3 (0.5, 0.5) 10.1;
           mkFace 0.1 (0.5, 0.5) 10.2; mkFace 0.3 (0.5, 0.5) 10.3]
          (calibrated_on example_corners)
        = Some (s', [[]; [BlinkEvent 10.1; Pointer Click];
                     []; [BlinkEvent 10.3; Pointer Click]])
        /\ last_click s' = last_click (calibrated_on example_corners)
        /\ 10.3 - 10.1 < dwell default_settings).
Proof.
  split.
  - intros f s Hwf Hc Hi Hb He.
    destruct (update_face_calibrated sw sh pow_half cfg f s Hwf Hc)
      as (s' & out & Hu & _ & _ & _ & _ & _ & _ & H).
    destruct H as (-> & ->); [|exact Hi|].
    + unfold falling_edge. rewrite Hb. apply Qle_bool_iff. exact He.
    + eexists. split; [exact Hu|]. repeat split.
  - eexists. split; [vm_compute; reflexivity|]. split; reflexivity.
Qed.


(** *** Smoothing and dwell clicks *)

(** How the gaze phase treats a frame: not at all, as the first position,
    as a settled gaze, or as a move. *)
Inductive gaze_kind : Type := Skipped | Started | Settled | Moved.


Section Dwell.

Variables sw sh : Z.
Variable pow_half : Q -> Q.
Variable cfg : Settings.

(** The gaze phase runs on the frame: calibrated, and more than
    [ignore_after_blink] after the last blink (l.152). *)
Definition processed (f : face) (s : State) : bool :=
  gaze_active cfg (f_now f)
    (fst (blink_edge cfg (f_ear f) (f_iris f) (f_now f) s)).

Definition kind (f : face) (s : State) : gaze_kind :=
  if processed f s then
    match smoothed s, _map sw sh s (fst (f_iris f)) (snd (f_iris f)) with
    | None, _ => Started
    | Some from, Some target =>
        if Qlt_bool (distance pow_half target from) (inject_Z (move_thr cfg))
        then Settled else Moved
    | Some _, None => Skipped
    end
  else Skipped.


Hypothesis ignore_nonneg : 0 <= ignore_after_blink cfg.

Lemma _map_points (s s1 : State) (ix iy : Q) :
  calibration_points s1 = calibration_points s ->
  _map sw sh s1 ix iy = _map sw sh s ix iy.
Proof.
  intro H. unfold _map, gaze_ratio, bounds. rewrite H. reflexivity.
Qed.

(** A processed frame raises no blink event, and its blink phase changes
    [is_blinking] at most. *)
Lemma processed_blink_phase (f : face) (s : State) :
  processed f s = true ->
  let s1 := fst (blink_edge cfg (f_ear f) (f_iris f) (f_now f) s) in
  snd (blink_edge cfg (f_ear f) (f_iris f) (f_now f) s) = []
  /\ calibrated s = true
  /\ ignore_after_blink cfg < f_now f - last_blink s
  /\ calibrated s1 = true
  /\ calibration_points s1 = calibration_points s
  /\ last_blink s1 = last_blink s
  /\ same_gaze_fields s s1.
Proof.
  unfold processed. intro Hp. cbv zeta.
  pose proof (blink_edge_effect cfg f s) as He. cbv zeta in He.
  destruct He as (_ & Hg & _ & _ & Hno & Hyes).
  destruct (falling_edge cfg f s) eqn:Hfe.
  - destruct (Hyes eq_refl) as (Hlb & _).
    rewrite (gaze_skipped_after_blink cfg (f_now f) _ ignore_nonneg Hlb) in Hp.
    discriminate.
  - destruct (Hno eq_refl) as (H1 & H2 & H3 & _ & _ & H6).
    unfold gaze_active in Hp. apply andb_prop in Hp. destruct Hp as (Hc & Ht).
    apply Qlt_bool_iff in Ht. rewrite H6 in Ht. rewrite H2 in Hc.
    repeat split; try assumption; try congruence; apply Hg.
Qed.

(** The four cases of a frame, seen from the state before it. *)
Lemma update_face_kind (f : face) (s : State) :
  wf s ->
  exists s' out,
    update_face sw sh pow_half cfg f s = Some (s', out)
    /\ wf s'
    /\ match kind f s with
       | Skipped =>
           same_gaze_fields s s'
           /\ out = snd (blink_edge cfg (f_ear f) (f_iris f) (f_now f) s)
       | Started =>
           exists target,
             _map sw sh s (fst (f_iris f)) (snd (f_iris f)) = Some target
             /\ smoothed s = None
             /\ out = []
             /\ smoothed s' = Some target
             /\ dwell_ts s' = f_now f
             /\ last_click s' = last_click s
       | Settled =>
           exists target from,
             _map sw sh s (fst (f_iris f)) (snd (f_iris f)) = Some target
             /\ smoothed s = Some from
             /\ distance pow_half target from < inject_Z (move_thr cfg)
             /\ smoothed s' = Some from
             /\ dwell_ts s' = dwell_ts s
             /\ if Qlt_bool (dwell cfg) (f_now f - dwell_ts s)
                   && Qlt_bool (dwell cfg) (f_now f - last_click s)
                then out = [Pointer Click] /\ last_click s' = f_now f
                else out = [] /\ last_click s' = last_click s
       | Moved =>
           exists target from,
             _map sw sh s (fst (f_iris f)) (snd (f_iris f)) = Some target
             /\ smoothed s = Some from
             /\ inject_Z (move_thr cfg) <= distance pow_half target from
             /\ let a := adaptive_alpha cfg (distance pow_half target from) in
                let sx := blend a (fst target) (fst from) in
                let sy := blend a (snd target) (snd from) in
                smoothed s' = Some (sx, sy)
                /\ out = [Pointer (MoveTo sx sy 0.08)]
                /\ dwell_ts s' = f_now f
                /\ last_click s' = last_click s
       end.
Proof.
  intro Hwf.
  destruct (update_face_total sw sh pow_half cfg f s Hwf)
    as (s' & out2 & Hu & Hg & Hwf').
  exists s'. eexists. split; [exact Hu|]. split; [exact Hwf'|].
  pose proof (blink_edge_effect cfg f s) as He. cbv zeta in He.
  destruct He as (_ & Hgf & _ & Hwf1 & _).
  unfold kind. destruct (processed f s) eqn:Hp.
  2:{ destruct (gaze_effect sw sh pow_half cfg (f_iris f) (f_now f) _ (Hwf1 Hwf))
        as (s2 & o2 & Hg2 & _ & _ & _ & Hskip).
      rewrite Hg in Hg2. injection Hg2 as <- <-.
      destruct (Hskip Hp) as (-> & ->).
      split; [exact Hgf | apply app_nil_r]. }
  pose proof (processed_blink_phase f s Hp) as Hb. cbv zeta in Hb.
  destruct Hb as (Ho1 & Hc & Ht & Hc1 & Hpts & Hlb & Hs1 & Hd1 & Hl1).
  rewrite Ho1. cbn [app].
  unfold gaze in Hg. unfold processed in Hp. rewrite Hp in Hg.
  rewrite (_map_points s _ _ _ Hpts) in Hg.
  rewrite Hs1, Hd1, Hl1 in Hg.
  destruct (map_returns sw sh s (fst (f_iris f)) (snd (f_iris f))
              (wf_points s Hwf Hc))
    as (rx & ry & _ & Hm).
  rewrite Hm in *.
  destruct (smoothed s) as [from|] eqn:Hsm.
  - destruct (Qlt_bool (distance pow_half _ from) (inject_Z (move_thr cfg))) eqn:Hd.
    + eexists; exists from. split; [reflexivity|]. split; [reflexivity|].
      split; [apply Qlt_bool_iff; exact Hd|].
      destruct (Qlt_bool (dwell cfg) (f_now f - dwell_ts s)
                && Qlt_bool (dwell cfg) (f_now f - last_click s));
        injection Hg as <- <-; cbn; repeat split; congruence.
    + eexists; exists from. split; [reflexivity|]. split; [reflexivity|].
      split; [apply Qlt_bool_false_iff; exact Hd|].
      injection Hg as <- <-. cbn. repeat split; congruence.
  - eexists. split; [reflexivity|]. injection Hg as <- <-.
    cbn. repeat split; congruence.
Qed.










End Dwell.



(** A dwell click: the gaze rests on the right edge from time 10 and the
    click comes at 11.5, after more than the dwell of one second. *)
Example dwell_click_fires :
  option_map snd
    (run 101 101 Approx.sqrt_approx default_settings
       [mkFace 0.3 (1, 0) 10; mkFace 0.3 (1, 0) 10.5; mkFace 0.3 (1, 0) 11.5]
       (calibrated_on unit_corners))
  = Some [[]; []; [Pointer Click]].
Proof. vm_compute. reflexivity. Qed.


End EyeFacts.

(** * Further properties of the hand pipeline *)

Module HandMore.
Import Hand HandFacts.

(** Plain [update] calls, one after the other: the commands issued, in
    order, and the controller after the last. *)
Fixpoint run_update (hypot : Q -> Q -> Q) (calls : list ((Z * Z) * (Z * Z)))
  (c : ClickController) : ClickController * list command :=
  match calls with
  | [] => (c, [])
  | (thumb_pos, index_pos) :: rest =>
      let '(c1, out) := update hypot thumb_pos index_pos c in
      let '(c2, outs) := run_update hypot rest c1 in
      (c2, out ++ outs)
  end.

(** A command list that presses and releases in turn, starting from a
    button that is held or not, and holds nothing but button commands. *)
Fixpoint alternates (held : bool) (cmds : list command) : bool :=
  match cmds with
  | [] => true
  | MouseDown :: rest => negb held && alternates true rest
  | MouseUp :: rest => held && alternates false rest
  | _ :: _ => false
  end.

(** Ticks of [_frame], one after the other. *)
Fixpoint run_frames (hypot : Q -> Q -> Q) (caps : list capture)
  (t : HandTracker) : option (HandTracker * list (list command)) :=
  match caps with
  | [] => Some (t, [])
  | cap :: rest =>
      match _frame hypot cap t with
      | None => None
      | Some (t1, out) =>
          match run_frames hypot rest t1 with
          | None => None
          | Some (t2, outs) => Some (t2, out :: outs)
          end
      end
  end.

(** The pixel position [_frame] gives a landmark (l.125-126). *)
Definition pixel (cap : capture) (p : point) : Z * Z :=
  (py_int (fst p * inject_Z (width cap)), py_int (snd p * inject_Z (height cap))).

(** The right-hand frame [_frame] hands to the controller (l.141). *)
Definition right_of (cap : capture) (lm : landmarks) : right_frame :=
  mkRight (pixel cap (lm 4%nat)) (pixel cap (lm 8%nat)) lm.

Definition is_right (h : handedness * landmarks) : bool :=
  match fst h with Right => true | Left => false end.

Definition is_move_to (c : command) : bool :=
  match c with MoveTo _ _ _ => true | _ => false end.

(** Scroll-mode frames whose midpoint moves by less than 0.02 since the
    scroll-mode frame before; [prev] is the midpoint held so far. *)
Fixpoint slow (hypot : Q -> Q -> Q) (prev : option Q) (fs : list right_frame)
  : Prop :=
  match fs with
  | [] => True
  | f :: rest =>
      if scrolling hypot f then
        match prev with
        | Some y0 =>
            - (0.02) < midpoint_y (rf_landmarks f) - y0
            /\ midpoint_y (rf_landmarks f) - y0 < 0.02
        | None => True
        end
        /\ slow hypot (Some (midpoint_y (rf_landmarks f))) rest
      else slow hypot None rest
  end.

Section Controller.

Variable hypot : Q -> Q -> Q.

(** X1.  Over any sequence of plain [update] calls the commands issued
    press and release in turn: never two MouseDown or two MouseUp in a
    row, the first one a MouseUp exactly when the flag was set before, and
    nothing but MouseDown and MouseUp, an even number of them exactly when
    the flag ends as it began; the scroll state is not touched. *)
Theorem update_alternates (calls : list ((Z * Z) * (Z * Z)))
  (c : ClickController) :
  alternates (down c) (snd (run_update hypot calls c)) = true
  /\ (Nat.even (List.length (snd (run_update hypot calls c)))
      = Bool.eqb (down c) (down (fst (run_update hypot calls c))))
  /\ scroll_mode (fst (run_update hypot calls c)) = scroll_mode c
  /\ last_y (fst (run_update hypot calls c)) = last_y c
  /\ thresh (fst (run_update hypot calls c)) = thresh c.
Proof.
  revert c. induction calls as [|[tp ip] rest IH]; intro c.
  - cbn. repeat split. destruct (down c); reflexivity.
  - cbn [run_update].
    destruct (update hypot tp ip c) as [c1 out] eqn:Eu.
    specialize (IH c1).
    destruct (run_update hypot rest c1) as [c2 outs].
    cbn [fst snd] in *.
    destruct IH as (I1 & I3 & I4 & I5 & I6).
    unfold update in Eu. injection Eu as <- <-.
    cbn [down scroll_mode last_y thresh] in *.
    rewrite I4, I5, I6. split; [|split; [|auto]].
    + destruct (Qlt_bool _ (inject_Z (thresh c))), (down c); cbn;
        rewrite ?I1; reflexivity.
    + rewrite length_app.
      destruct (Qlt_bool _ (inject_Z (thresh c))), (down c);
        cbn [andb negb List.length Nat.add]; rewrite ?Nat.even_succ,
          <- ?Nat.negb_even, ?I3; destruct (down c2); reflexivity.
Qed.

(** The hands of a tick when none is a left hand: the controller sees
    each in turn, nothing fails, and [left_found] stays as it was. *)
Lemma each_hand_right (h w : Z) (hs : list (handedness * landmarks))
  (t : HandTracker) (lf : bool) :
  forallb is_right hs = true ->
  exists t' out,
    each_hand hypot h w hs t lf = Some (t', lf, out)
    /\ thresh (ctrl t') = thresh (ctrl t)
    /\ screen_w t' = screen_w t /\ screen_h t' = screen_h t
    /\ forallb (fun c => negb (is_click c) && negb (is_move_to c)) out = true.
Proof.
  revert t. induction hs as [|[label lm] rest IH]; intros t Hr.
  - exists t, []. repeat split.
  - cbn [forallb] in Hr. apply andb_prop in Hr. destruct Hr as (Hl & Hr).
    destruct label; [discriminate|]. cbn [each_hand].
    pose proof (right_step_flags hypot
                  (mkRight (py_int (fst (lm 4%nat) * inject_Z w),
                            py_int (snd (lm 4%nat) * inject_Z h))
                           (py_int (fst (lm 8%nat) * inject_Z w),
                            py_int (snd (lm 8%nat) * inject_Z h)) lm)
                  (ctrl t)) as (_ & _ & Ht).
    assert (Hout : forallb (fun c => negb (is_click c) && negb (is_move_to c))
                     (snd (right_step hypot
                       (mkRight (py_int (fst (lm 4%nat) * inject_Z w),
                                 py_int (snd (lm 4%nat) * inject_Z h))
                                (py_int (fst (lm 8%nat) * inject_Z w),
                                 py_int (snd (lm 8%nat) * inject_Z h)) lm)
                       (ctrl t))) = true).
    { unfold right_step, update_with_landmarks, update.
      cbn [rf_thumb rf_index rf_landmarks fst snd down last_y scroll_mode].
      repeat match goal with
      | |- context [if ?b then _ else _] => destruct b
      | |- context [match ?o with Some _ => _ | None => _ end] => destruct o
      end; reflexivity. }
    unfold right_step in Ht, Hout.
    cbn [rf_thumb rf_index rf_landmarks] in Ht, Hout.
    destruct (update_with_landmarks hypot _ _ lm (ctrl t)) as [c' out1].
    cbn [fst snd] in Ht, Hout.
    destruct (IH {| ctrl := c'; screen_w := screen_w t; screen_h := screen_h t |} Hr)
      as (t' & out & He & H1 & H2 & H3 & H4).
    rewrite He. exists t', (out1 ++ out). cbn [ctrl screen_w screen_h] in *.
    split; [reflexivity|]. split; [congruence|]. split; [exact H2|].
    split; [exact H3|]. rewrite forallb_app, Hout, H4. reflexivity.
Qed.

End Controller.

Section Failsafe.

Variable hypot : Q -> Q -> Q.

Hypothesis hypot_ge_leg :
  forall a b : Z, Qabs (inject_Z a) <= hypot (inject_Z a) (inject_Z b).

(** The call of l.155 releases the flag. *)
Lemma failsafe_releases (c : ClickController) :
  (thresh c <= 9999)%Z ->
  update hypot (0, 0)%Z (9999, 9999)%Z c
  = ({| down := false; thresh := thresh c;
        scroll_mode := scroll_mode c; last_y := last_y c |},
     if down c then [MouseUp] else []).
Proof.
  intro Hth. unfold update. cbn [fst snd].
  assert (Hd : Qlt_bool (hypot (inject_Z (0 - 9999)) (inject_Z (0 - 9999)))
                        (inject_Z (thresh c)) = false).
  { apply Qlt_bool_false_iff.
    apply Qle_trans with (Qabs (inject_Z (0 - 9999))); [|apply hypot_ge_leg].
    change (Qabs (inject_Z (0 - 9999))) with (inject_Z 9999).
    rewrite <- Zle_Qle. exact Hth. }
  rewrite Hd. destruct (down c); reflexivity.
Qed.

(** X2.  A tick that read a frame and found no left hand, whatever right
    hands it found, returns with the click flag released: after the right
    hands the controller is updated with the open pose, which issues a last
    MouseUp exactly when a right hand had left the flag set.  Such a tick
    issues no MoveTo and no Click. *)
Theorem no_left_hand_releases (cap : capture) (t : HandTracker) :
  ret cap = true ->
  forallb is_right (hands cap) = true ->
  (thresh (ctrl t) <= 9999)%Z ->
  exists t1 out1 t',
    each_hand hypot (height cap) (width cap) (hands cap) t false
    = Some (t1, false, out1)
    /\ _frame hypot cap t
       = Some (t', out1 ++ (if down (ctrl t1) then [MouseUp] else []))
    /\ down (ctrl t') = false
    /\ scroll_mode (ctrl t') = scroll_mode (ctrl t1)
    /\ last_y (ctrl t') = last_y (ctrl t1)
    /\ forallb (fun c => negb (is_click c) && negb (is_move_to c)) out1 = true.
Proof.
  intros Hret Hr Hth.
  destruct (each_hand_right hypot (height cap) (width cap) (hands cap) t false Hr)
    as (t1 & out1 & He & Ht & _ & _ & Hout).
  exists t1, out1. eexists. split; [exact He|].
  unfold _frame. rewrite Hret, He. cbn [negb].
  rewrite failsafe_releases by (rewrite Ht; exact Hth).
  split; [reflexivity|]. cbn. auto.
Qed.

(** X3.  With only a right hand in view, thumb on index and the middle
    finger away, a controller that is released and out of scroll mode
    issues a MouseDown and then a MouseUp within the tick and is left as it
    was; so a pinch held over [n] such ticks clicks [n] times instead of
    holding the button. *)
Theorem right_only_pinch_clicks_every_tick (cap : capture) (lm : landmarks)
  (t : HandTracker) (n : nat) :
  ret cap = true ->
  hands cap = [(Right, lm)] ->
  (thresh (ctrl t) <= 9999)%Z ->
  down (ctrl t) = false ->
  scroll_mode (ctrl t) = false ->
  pinched hypot (right_of cap lm) (ctrl t) = true ->
  scrolling hypot (right_of cap lm) = false ->
  _frame hypot cap t = Some (t, [MouseDown; MouseUp])
  /\ run_frames hypot (repeat cap n) t
     = Some (t, repeat [MouseDown; MouseUp] n).
Proof.
  intros Hret Hh Hth Hd Hs Hp Hsc.
  assert (H1 : _frame hypot cap t = Some (t, [MouseDown; MouseUp])).
  { unfold pinched, scrolling, right_of, pixel in Hp, Hsc.
    cbn [rf_thumb rf_index rf_landmarks fst snd] in Hp, Hsc.
    set (c1 := {| down := true; thresh := thresh (ctrl t);
                  scroll_mode := false; last_y := last_y (ctrl t) |}).
    assert (E1 : update hypot
                   (py_int (fst (lm 4%nat) * inject_Z (width cap)),
                    py_int (snd (lm 4%nat) * inject_Z (height cap)))
                   (py_int (fst (lm 8%nat) * inject_Z (width cap)),
                    py_int (snd (lm 8%nat) * inject_Z (height cap)))
                   (ctrl t) = (c1, [MouseDown])).
    { unfold update. cbn [fst snd]. rewrite Hp, Hd, Hs. reflexivity. }
    unfold _frame. rewrite Hret, Hh. cbn [negb each_hand].
    unfold update_with_landmarks. rewrite E1, Hsc.
    cbn [scroll_mode down c1 andb app ctrl screen_w screen_h negb].
    rewrite (failsafe_releases c1 Hth). cbn.
    destruct t as [[d th sm ly] w0 h0]. cbn in *. subst. reflexivity. }
  split; [exact H1|].
  induction n as [|n IH]; [reflexivity|].
  cbn [repeat run_frames]. rewrite H1, IH. reflexivity.
Qed.

End Failsafe.

Section Pointer.

Variable hypot : Q -> Q -> Q.

Lemma py_int_unit (q : Q) (n : Z) :
  0 <= q -> q <= inject_Z n -> (0 <= py_int q <= n)%Z.
Proof.
  intros H0 H1. split.
  - change 0%Z with (py_int 0). apply EyeFacts.py_int_mono. exact H0.
  - rewrite <- (py_int_inject_Z n). apply EyeFacts.py_int_mono. exact H1.
Qed.

(** One axis of the left-hand pointer (l.125, l.134): a normalized
    coordinate, a frame side and a screen side. *)
Lemma left_axis (x : Q) (side screen : Z) :
  0 <= x <= 1 -> (0 < side)%Z -> (0 <= screen)%Z ->
  exists q,
    py_div (inject_Z (py_int (x * inject_Z side) * screen)) (inject_Z side)
    = Some q
    /\ (0 <= py_int q <= screen)%Z.
Proof.
  intros Hx Hs Hscr.
  assert (Hsq : 0 < inject_Z side).
  { change 0 with (inject_Z 0). rewrite <- Zlt_Qlt. exact Hs. }
  assert (Hi : (0 <= py_int (x * inject_Z side) <= side)%Z).
  { apply py_int_unit; nra. }
  unfold py_div.
  assert (E : Qeq_bool (inject_Z side) 0 = false).
  { destruct (Qeq_bool (inject_Z side) 0) eqn:E; [|reflexivity].
    apply Qeq_bool_iff in E. lra. }
  rewrite E. eexists. split; [reflexivity|].
  apply py_int_unit.
  - apply Qle_shift_div_l; [exact Hsq|].
    rewrite Qmult_0_l. change 0 with (inject_Z 0). rewrite <- Zle_Qle. nia.
  - apply Qle_shift_div_r; [exact Hsq|].
    rewrite <- inject_Z_mult, <- Zle_Qle. nia.
Qed.

(** X4.  A tick with a left hand alone, its index tip inside the frame,
    issues exactly one MoveTo, without animation, to a point between (0, 0)
    and (screen_w, screen_h) inclusive, and leaves the whole tracker as it
    was: the click flag is not released, unlike on a tick without a left
    hand. *)
Theorem left_hand_moves_only (cap : capture) (lm : landmarks)
  (t : HandTracker) :
  ret cap = true ->
  hands cap = [(Left, lm)] ->
  (0 < width cap)%Z -> (0 < height cap)%Z ->
  (0 <= screen_w t)%Z -> (0 <= screen_h t)%Z ->
  0 <= fst (lm 8%nat) <= 1 -> 0 <= snd (lm 8%nat) <= 1 ->
  exists sx sy,
    _frame hypot cap t = Some (t, [MoveTo sx sy 0])
    /\ (0 <= sx <= screen_w t)%Z /\ (0 <= sy <= screen_h t)%Z.
Proof.
  intros Hret Hh Hw Hhe Hsw Hsh Hx Hy.
  destruct (left_axis (fst (lm 8%nat)) (width cap) (screen_w t) Hx Hw Hsw)
    as (qx & Eqx & Bx).
  destruct (left_axis (snd (lm 8%nat)) (height cap) (screen_h t) Hy Hhe Hsh)
    as (qy & Eqy & By).
  exists (py_int qx), (py_int qy).
  split; [|split; assumption].
  unfold _frame. rewrite Hret, Hh. cbn [negb each_hand].
  rewrite Eqx, Eqy. reflexivity.
Qed.

(** What the hands of a tick can issue. *)
Lemma each_hand_commands (h w : Z) (hs : list (handedness * landmarks))
  (t t' : HandTracker) (lf lf' : bool) (out : list command) :
  each_hand hypot h w hs t lf = Some (t', lf', out) ->
  filter is_click out = []
  /\ count is_move_to out
     = List.length (filter (fun x => negb (is_right x)) hs)
  /\ lf' = lf || existsb (fun x => negb (is_right x)) hs
  /\ thresh (ctrl t') = thresh (ctrl t)
  /\ screen_w t' = screen_w t /\ screen_h t' = screen_h t.
Proof.
  revert t lf out. induction hs as [|[label lm] rest IH]; intros t lf out He.
  - cbn in He. injection He as <- <- <-. cbn. rewrite orb_false_r.
    repeat split.
  - cbn [each_hand] in He. destruct label.
    + destruct (py_div _ (inject_Z w)) as [qx|]; [|discriminate].
      destruct (py_div _ (inject_Z h)) as [qy|]; [|discriminate].
      destruct (each_hand hypot h w rest t true) as [[[t1 lf1] out1]|] eqn:E;
        [|discriminate].
      injection He as <- <- <-.
      destruct (IH t true out1 E) as (I1 & I2 & I3 & I4 & I5 & I6).
      unfold count in *. cbn. rewrite I1, I2, I3, orb_true_r.
      repeat split; auto.
    + pose proof (right_step_flags hypot
                    (mkRight (py_int (fst (lm 4%nat) * inject_Z w),
                              py_int (snd (lm 4%nat) * inject_Z h))
                             (py_int (fst (lm 8%nat) * inject_Z w),
                              py_int (snd (lm 8%nat) * inject_Z h)) lm)
                    (ctrl t)) as (_ & _ & Ht).
      assert (Hout : filter is_click (snd (right_step hypot
                       (mkRight (py_int (fst (lm 4%nat) * inject_Z w),
                                 py_int (snd (lm 4%nat) * inject_Z h))
                                (py_int (fst (lm 8%nat) * inject_Z w),
                                 py_int (snd (lm 8%nat) * inject_Z h)) lm)
                       (ctrl t))) = []
                     /\ filter is_move_to (snd (right_step hypot
                       (mkRight (py_int (fst (lm 4%nat) * inject_Z w),
                                 py_int (snd (lm 4%nat) * inject_Z h))
                                (py_int (fst (lm 8%nat) * inject_Z w),
                                 py_int (snd (lm 8%nat) * inject_Z h)) lm)
                       (ctrl t))) = []).
      { unfold right_step, update_with_landmarks, update.
        cbn [rf_thumb rf_index rf_landmarks fst snd down last_y scroll_mode].
        repeat match goal with
        | |- context [if ?b then _ else _] => destruct b
        | |- context [match ?o with Some _ => _ | None => _ end] => destruct o
        end; split; reflexivity. }
      unfold right_step in Ht, Hout.
      cbn [rf_thumb rf_index rf_landmarks] in Ht, Hout.
      destruct (update_with_landmarks hypot _ _ lm (ctrl t)) as [c' o1].
      cbn [fst snd] in Ht, Hout. destruct Hout as (Hc & Hm).
      destruct (each_hand hypot h w rest _ lf) as [[[t1 lf1] out1]|] eqn:E;
        [|discriminate].
      injection He as <- <- <-.
      destruct (IH _ lf out1 E) as (I1 & I2 & I3 & I4 & I5 & I6).
      cbn [ctrl screen_w screen_h] in *.
      unfold count in *. rewrite !filter_app, length_app, Hc, Hm, I1, I2.
      cbn. repeat split; auto. congruence.
Qed.

(** X7.  Whenever a tick of the hand pipeline returns, it has issued no
    Click, and, if it read a frame, exactly one MoveTo for each left hand
    found; it never changes the click threshold or the screen size it
    holds.  A tick that read no frame changes nothing and issues nothing. *)
Theorem frame_commands (cap : capture) (t t' : HandTracker)
  (out : list command) :
  _frame hypot cap t = Some (t', out) ->
  filter is_click out = []
  /\ (ret cap = true ->
      count is_move_to out
      = List.length (filter (fun x => negb (is_right x)) (hands cap)))
  /\ (ret cap = false -> t' = t /\ out = [])
  /\ thresh (ctrl t') = thresh (ctrl t)
  /\ screen_w t' = screen_w t /\ screen_h t' = screen_h t.
Proof.
  unfold _frame. destruct (ret cap) eqn:Hret; cbn [negb].
  2:{ intro H. injection H as <- <-. repeat split; auto; discriminate. }
  destruct (each_hand hypot (height cap) (width cap) (hands cap) t false)
    as [[[t1 lf] out1]|] eqn:E; [|discriminate].
  destruct (each_hand_commands _ _ _ _ _ _ _ _ E) as (I1 & I2 & I3 & I4 & I5 & I6).
  destruct lf; cbn [negb].
  - intro H. injection H as <- <-. repeat split; auto; discriminate.
  - unfold update. cbn [fst snd]. intro H. injection H as <- <-.
    cbn [ctrl screen_w screen_h thresh]. unfold count in *.
    rewrite !filter_app, length_app, I1, I2.
    repeat match goal with
    | |- context [if ?b then _ else _] => destruct b
    end; cbn; repeat split; auto; try discriminate; lia.
Qed.

(** Truncation of a number of size below 2. *)
Lemma py_int_small (q : Q) : - (2) < q -> q < 2 -> (Z.abs (py_int q) <= 1)%Z.
Proof.
  unfold py_int, Qlt. destruct q as [n d]. cbn. intros Hlo Hhi.
  destruct (Z_lt_le_dec n 0) as [Hn|Hn].
  - assert (H : (0 <= (- n) ÷ Z.pos d < 2)%Z).
    { split; [apply Z.quot_pos; lia|].
      apply Z.quot_lt_upper_bound; lia. }
    rewrite Z.quot_opp_l in H by lia. lia.
  - assert (H : (0 <= n ÷ Z.pos d < 2)%Z).
    { split; [apply Z.quot_pos; lia|].
      apply Z.quot_lt_upper_bound; lia. }
    lia.
Qed.

(** The Scroll commands of a right-hand frame, and the midpoint it leaves,
    from the midpoint the controller holds. *)
Lemma right_step_scroll (f : right_frame) (c : ClickController) :
  filter is_scroll (snd (right_step hypot f c))
  = (if scrolling hypot f then
       match last_y c with
       | Some last =>
           if (1 <? Z.abs (scroll_amount (midpoint_y (rf_landmarks f)) last))%Z
           then [Scroll (- scroll_amount (midpoint_y (rf_landmarks f)) last)]
           else []
       | None => []
       end
     else [])
  /\ last_y (fst (right_step hypot f c))
     = (if scrolling hypot f then Some (midpoint_y (rf_landmarks f))
        else if scroll_mode c then None else last_y c).
Proof.
  unfold right_step, update_with_landmarks, update, scrolling.
  cbn [fst snd down thresh scroll_mode last_y].
  destruct (Qlt_bool (pinch_distance hypot (rf_landmarks f)) 0.05).
  - destruct (last_y c) as [last|]; cbn [fst snd last_y];
      repeat match goal with
      | |- context [if ?b then _ else _] => destruct b
      end; split; reflexivity.
  - cbn [fst snd].
    repeat match goal with
    | |- context [if ?b then _ else _] => destruct b
    end; split; reflexivity.
Qed.

(** X5.  Slow motion never scrolls: over a sequence of right-hand frames
    in which the midpoint moves by less than 0.02 from each scroll-mode
    frame to the next, no Scroll is issued at all, however far the hand
    travels in total, because each frame replaces the reference midpoint. *)
Theorem slow_motion_never_scrolls (fs : list right_frame)
  (c : ClickController) :
  coherent c ->
  slow hypot (last_y c) fs ->
  Forall (fun out => filter is_scroll out = []) (snd (run_right hypot fs c)).
Proof.
  revert c. induction fs as [|f rest IH]; intros c Hc Hs.
  - constructor.
  - cbn [run_right].
    pose proof (right_step_scroll f c) as (Hout & Hly).
    pose proof (coherent_right_step hypot f c Hc) as Hc'.
    destruct (right_step hypot f c) as [c1 out]. cbn [fst snd] in *.
    specialize (IH c1 Hc').
    destruct (run_right hypot rest c1) as [c2 outs]. cbn [snd] in *.
    cbn [slow] in Hs. destruct (scrolling hypot f).
    + destruct Hs as (Hm & Hrest). rewrite <- Hly in Hrest.
      constructor; [|apply IH; exact Hrest].
      rewrite Hout. destruct (last_y c) as [y0|]; [|reflexivity].
      destruct Hm as (Hlo & Hhi).
      assert (Hsm : (Z.abs (scroll_amount (midpoint_y (rf_landmarks f)) y0)
                     <= 1)%Z).
      { unfold scroll_amount. apply py_int_small; lra. }
      destruct (Z.ltb_spec 1
                  (Z.abs (scroll_amount (midpoint_y (rf_landmarks f)) y0)));
        [lia | reflexivity].
    + constructor; [exact Hout|]. apply IH.
      replace (last_y c1) with (@None Q); [exact Hs|].
      rewrite Hly. destruct (scroll_mode c) eqn:E; [reflexivity|].
      symmetry. apply Hc. exact E.
Qed.

(** Ticks without hands keep the scroll state. *)
Lemma run_frames_no_hands (caps : list capture) (t : HandTracker) :
  Forall (fun cap => hands cap = []) caps ->
  exists t1 outs,
    run_frames hypot caps t = Some (t1, outs)
    /\ last_y (ctrl t1) = last_y (ctrl t)
    /\ scroll_mode (ctrl t1) = scroll_mode (ctrl t).
Proof.
  revert t. induction caps as [|cap rest IH]; intros t Hall.
  - exists t, []. repeat split.
  - inversion Hall as [|? ? Hh Hrest]; subst.
    assert (Hf : exists t0 out,
               _frame hypot cap t = Some (t0, out)
               /\ last_y (ctrl t0) = last_y (ctrl t)
               /\ scroll_mode (ctrl t0) = scroll_mode (ctrl t)).
    { unfold _frame. rewrite Hh. destruct (ret cap); cbn [negb each_hand].
      - unfold update. cbn [fst snd]. eexists; eexists.
        split; [reflexivity|]. split; reflexivity.
      - exists t, []. repeat split. }
    destruct Hf as (t0 & out & Hf & H1 & H2).
    destruct (IH t0 Hrest) as (t1 & outs & Hr & H3 & H4).
    exists t1, (out :: outs). cbn [run_frames]. rewrite Hf, Hr.
    split; [reflexivity|]. split; congruence.
Qed.

(** X6.  Losing the hand does not end a scroll: ticks without hands leave
    the scroll reference alone, so when the right hand comes back in the
    scroll pose the frame scrolls by the whole jump of the midpoint since
    the last frame before the loss, whenever that is more than 1 after
    scaling and truncation. *)
Theorem scroll_reference_survives_loss (caps : list capture)
  (t : HandTracker) (f : right_frame) (y0 : Q) :
  Forall (fun cap => hands cap = []) caps ->
  last_y (ctrl t) = Some y0 ->
  scrolling hypot f = true ->
  exists t1 outs,
    run_frames hypot caps t = Some (t1, outs)
    /\ last_y (ctrl t1) = Some y0
    /\ let amount := py_int ((midpoint_y (rf_landmarks f) - y0) * 100) in
       filter is_scroll (snd (right_step hypot f (ctrl t1)))
       = if (1 <? Z.abs amount)%Z then [Scroll (- amount)] else [].
Proof.
  intros Hall Hy Hs.
  destruct (run_frames_no_hands caps t Hall) as (t1 & outs & Hr & H1 & _).
  exists t1, outs. split; [exact Hr|]. split; [congruence|].
  cbv zeta. destruct (right_step_scroll f (ctrl t1)) as (Hout & _).
  rewrite Hout, Hs, H1, Hy. reflexivity.
Qed.

End Pointer.

(** *** Examples *)

(** A 640 by 480 frame with one hand: thumb on index, middle finger away. *)
Definition pinch_landmarks : landmarks :=
  lm_of (0.5, 0.5) (0.51, 0.5) (0.7, 0.5).

Definition right_pinch_tick : capture :=
  mkCapture true 480 640 [(Right, pinch_landmarks)].

Definition left_tick : capture :=
  mkCapture true 480 640 [(Left, pinch_landmarks)].

Definition no_hand_tick : capture := mkCapture true 480 640 [].

Definition fresh_tracker : HandTracker := mkTracker init 1920 1080.

Lemma no_left_hand_releases_witness :
  exists t',
    _frame Approx.hypot_approx right_pinch_tick
      (mkTracker (mkController true 40 false None) 1920 1080)
    = Some (t', [MouseUp])
    /\ down (ctrl t') = false.
Proof.
  destruct (no_left_hand_releases Approx.hypot_approx
              ApproxFacts.hypot_approx_ge_leg right_pinch_tick
              (mkTracker (mkController true 40 false None) 1920 1080)
              eq_refl eq_refl ltac:(cbn; lia))
    as (t1 & out1 & t' & He & Hf & Hd & _).
  vm_compute in He. injection He as <- <-.
  exists t'. split; [exact Hf | exact Hd].
Defined.

Lemma right_only_pinch_clicks_every_tick_witness :
  run_frames Approx.hypot_approx (repeat right_pinch_tick 3) fresh_tracker
  = Some (fresh_tracker, repeat [MouseDown; MouseUp] 3).
Proof.
  apply (right_only_pinch_clicks_every_tick Approx.hypot_approx
           ApproxFacts.hypot_approx_ge_leg right_pinch_tick pinch_landmarks
           fresh_tracker 3 eq_refl eq_refl ltac:(cbn; lia) eq_refl eq_refl
           ltac:(vm_compute; reflexivity) ltac:(vm_compute; reflexivity)).
Defined.

Lemma left_hand_moves_only_witness :
  exists sx sy,
    _frame Approx.hypot_approx left_tick
      (mkTracker (mkController true 40 false None) 1920 1080)
    = Some (mkTracker (mkController true 40 false None) 1920 1080,
            [MoveTo sx sy 0])
    /\ (0 <= sx <= 1920)%Z /\ (0 <= sy <= 1080)%Z.
Proof.
  apply (left_hand_moves_only Approx.hypot_approx left_tick pinch_landmarks
           (mkTracker (mkController true 40 false None) 1920 1080)
           eq_refl eq_refl);
    cbn; try lia; split; discriminate.
Defined.

Lemma frame_commands_witness :
  filter is_click [MoveTo 978 540 0] = []
  /\ count is_move_to [MoveTo 978 540 0] = 1%nat.
Proof.
  destruct (frame_commands Approx.hypot_approx left_tick fresh_tracker
              fresh_tracker [MoveTo 978 540 0]
              ltac:(vm_compute; reflexivity))
    as (H1 & H2 & _).
  split; [exact H1 | exact (H2 eq_refl)].
Defined.

(** The scroll pose drifting down by 0.015 per frame. *)
Definition drift (y : Q) : right_frame :=
  mkRight (0, 0)%Z (100, 100)%Z (lm_of (0, 0) (0.5, y) (0.51, y)).

Lemma slow_motion_never_scrolls_witness :
  Forall (fun out => filter is_scroll out = [])
    (snd (run_right Approx.hypot_approx
            [drift 0.5; drift 0.515; drift 0.53; drift 0.545] init)).
Proof.
  apply (slow_motion_never_scrolls Approx.hypot_approx
           [drift 0.5; drift 0.515; drift 0.53; drift 0.545] init
           coherent_init).
  cbn -[Qlt Qminus Qopp midpoint_y].
  repeat split; vm_compute; reflexivity.
Defined.

Lemma scroll_reference_survives_loss_witness :
  exists t1 outs,
    run_frames Approx.hypot_approx [no_hand_tick; no_hand_tick]
      (mkTracker (mkController false 40 true (Some 0.2)) 1920 1080)
    = Some (t1, outs)
    /\ filter is_scroll (snd (right_step Approx.hypot_approx (drift 0.5) (ctrl t1)))
       = [Scroll (-30)].
Proof.
  destruct (scroll_reference_survives_loss Approx.hypot_approx
              [no_hand_tick; no_hand_tick]
              (mkTracker (mkController false 40 true (Some 0.2)) 1920 1080)
              (drift 0.5) 0.2
              ltac:(repeat constructor) eq_refl
              ltac:(vm_compute; reflexivity))
    as (t1 & outs & Hr & _ & Hs).
  exists t1, outs. split; [exact Hr | exact Hs].
Defined.

End HandMore.

(** * Further properties of the gaze pipeline *)

Module EyeMore.
Import Eye EyeFacts.

(** The horizontal extent [C] of an eye in [_ear] (l.106). *)
Definition eye_width (norm2 : Q -> Q -> Q) (lm : landmarks) (ids : list nat) : Q :=
  let pts := map lm ids in
  norm2 (fst (nth 0 pts (0, 0)) - fst (nth 3 pts (0, 0)))
        (snd (nth 0 pts (0, 0)) - snd (nth 3 pts (0, 0))).

(** Ticks of [_update], one after the other. *)
Fixpoint run_ticks (sw sh : Z) (pow_half : Q -> Q) (norm2 : Q -> Q -> Q)
  (cfg : Settings) (ticks : list capture) (s : State)
  : option (State * list (list event)) :=
  match ticks with
  | [] => Some (s, [])
  | c :: rest =>
      match _update sw sh pow_half norm2 cfg c s with
      | None => None
      | Some (s1, out) =>
          match run_ticks sw sh pow_half norm2 cfg rest s1 with
          | None => None
          | Some (s2, outs) => Some (s2, out :: outs)
          end
      end
  end.

(** The faces a sequence of ticks gets to see: the first face of every
    tick that read a frame and found one. *)
Definition seen (norm2 : Q -> Q -> Q) (ticks : list capture) : list face :=
  flat_map (fun c =>
              if ret c then
                match faces c with
                | lm :: _ => [face_of norm2 lm (now c)]
                | [] => []
                end
              else []) ticks.

(** The final state and all the events of a run, in order. *)
Definition outcome (r : option (State * list (list event)))
  : option (State * list event) :=
  option_map (fun x => (fst x, List.concat (snd x))) r.

Definition is_pointer (e : event) : bool :=
  match e with Pointer _ => true | _ => false end.

(** A pixel of a screen of [sw] by [sh]. *)
Definition on_screen (sw sh : Z) (p : Z * Z) : Prop :=
  (0 <= fst p <= sw - 1)%Z /\ (0 <= snd p <= sh - 1)%Z.



(** Whether the blink buffer holds a timestamp, as a number. *)
Definition pending (s : State) : nat :=
  match blink_times s with [] => 0 | _ :: _ => 1 end.

(** The blink events of a run. *)
Definition blinks (outs : list (list event)) : nat :=
  List.length (blink_stamps (List.concat outs)).

Section Ear.

Variables sw sh : Z.
Variable pow_half : Q -> Q.
Variable norm2 : Q -> Q -> Q.
Variable cfg : Settings.

(** [np.linalg.norm] is never negative. *)
Hypothesis norm2_nonneg : forall x y : Q, 0 <= norm2 x y.

Lemma _ear_nonneg (lm : landmarks) (ids : list nat) : 0 <= _ear norm2 lm ids.
Proof.
  unfold _ear. cbv zeta.
  match goal with
  | |- 0 <= (if Qeq_bool ?c 0 then 0 else (?a + ?b) / (2 * ?c)) =>
      assert (Ha : 0 <= a) by apply norm2_nonneg;
      assert (Hb : 0 <= b) by apply norm2_nonneg;
      assert (Hc : 0 <= c) by apply norm2_nonneg;
      destruct (Qeq_bool c 0) eqn:E; [lra|];
      assert (HC : 0 < 2 * c)
  end.
  { match goal with
    | |- 0 < 2 * ?c =>
        destruct (Qlt_le_dec 0 c) as [Hp|Hn]; [lra|];
        assert (Hz : c == 0) by lra
    end.
    apply Qeq_bool_iff in Hz. congruence. }
  apply Qle_shift_div_l; [exact HC | lra].
Qed.

Lemma _ear_degenerate (lm : landmarks) (ids : list nat) :
  eye_width norm2 lm ids == 0 -> _ear norm2 lm ids = 0.
Proof.
  unfold eye_width, _ear. cbv zeta. intro H.
  apply Qeq_bool_iff in H. rewrite H. reflexivity.
Qed.

(** X8.  The eye aspect ratio is never negative and needs no guard from its
    caller: an eye whose two corners coincide reads exactly 0 instead of
    dividing by zero.  So a face whose eyes both have zero width reads as
    closed under any positive threshold: the tick leaves the detector
    BLINKING and raises no blink event. *)
Theorem degenerate_eye_reads_closed (lm : landmarks) (t : Q) (s : State) :
  wf s ->
  0 < blink_thresh cfg ->
  (0 <= _ear norm2 lm LEFT_EYE /\ 0 <= _ear norm2 lm RIGHT_EYE
   /\ 0 <= f_ear (face_of norm2 lm t))
  /\ (eye_width norm2 lm LEFT_EYE == 0 -> _ear norm2 lm LEFT_EYE = 0)
  /\ (eye_width norm2 lm RIGHT_EYE == 0 -> _ear norm2 lm RIGHT_EYE = 0)
  /\ (eye_width norm2 lm LEFT_EYE == 0 ->
      eye_width norm2 lm RIGHT_EYE == 0 ->
      exists s' out,
        _update sw sh pow_half norm2 cfg (mkCapture true [lm] t) s
        = Some (s', out)
        /\ is_blinking s' = true
        /\ blink_stamps out = []).
Proof.
  intros Hwf Hth.
  pose proof (_ear_nonneg lm LEFT_EYE) as HL.
  pose proof (_ear_nonneg lm RIGHT_EYE) as HR.
  split; [|split; [|split]].
  - split; [exact HL|]. split; [exact HR|].
    unfold face_of. cbn [f_ear]. apply Qle_shift_div_l; lra.
  - apply _ear_degenerate.
  - apply _ear_degenerate.
  - intros EL ER. rewrite _update_cases. cbn [ret faces now].
    destruct (update_face_blink sw sh pow_half cfg (face_of norm2 lm t) s Hwf)
      as (s' & out & Hu & _ & _ & Hb & Hst & _).
    exists s', out. split; [exact Hu|].
    assert (He : f_ear (face_of norm2 lm t) == 0).
    { unfold face_of. cbn [f_ear].
      rewrite (_ear_degenerate lm LEFT_EYE EL), (_ear_degenerate lm RIGHT_EYE ER).
      reflexivity. }
    split.
    + rewrite Hb. unfold below. apply Qlt_bool_iff. lra.
    + rewrite Hst. unfold falling_edge.
      replace (Qle_bool (blink_thresh cfg) (f_ear (face_of norm2 lm t)))
        with false; [rewrite andb_false_r; reflexivity|].
      symmetry. destruct (Qle_bool _ _) eqn:E; [|reflexivity].
      apply Qle_bool_iff in E. exfalso. lra.
Qed.

End Ear.

Section Ticks.

Variables sw sh : Z.
Variable pow_half : Q -> Q.
Variable norm2 : Q -> Q -> Q.
Variable cfg : Settings.

(** X9.  Ticks that read no frame or found no face are no-ops: a sequence
    of ticks ends in the same state, after the same events in the same
    order, as the frames with a face alone, and fails exactly when those
    do. *)
Theorem failed_ticks_are_noops (ticks : list capture) (s : State) :
  outcome (run_ticks sw sh pow_half norm2 cfg ticks s)
  = outcome (run sw sh pow_half cfg (seen norm2 ticks) s).
Proof.
  revert s. induction ticks as [|c rest IH]; intro s; [reflexivity|].
  cbn [run_ticks seen flat_map]. fold (seen norm2 rest).
  rewrite _update_cases.
  destruct (ret c); [destruct (faces c) as [|lm more]|].
  - cbn [app]. rewrite <- IH.
    destruct (run_ticks sw sh pow_half norm2 cfg rest s) as [[s2 outs]|];
      reflexivity.
  - cbn [app run].
    destruct (update_face sw sh pow_half cfg (face_of norm2 lm (now c)) s)
      as [[s1 out]|]; [|reflexivity].
    specialize (IH s1).
    destruct (run_ticks sw sh pow_half norm2 cfg rest s1) as [[s2 outs]|],
             (run sw sh pow_half cfg (seen norm2 rest) s1) as [[s3 outs']|];
      cbn in *; try discriminate; try reflexivity.
    injection IH as -> ->. reflexivity.
  - cbn [app]. rewrite <- IH.
    destruct (run_ticks sw sh pow_half norm2 cfg rest s) as [[s2 outs]|];
      reflexivity.
Qed.

End Ticks.

(** *** The pointer stays on the screen *)

Lemma fold_min_le (r : list Q) (x : Q) : fold_left py_min r x <= x.
Proof.
  revert x. induction r as [|y r IH]; intro x; cbn [fold_left]; [lra|].
  apply Qle_trans with (py_min x y); [apply IH|].
  apply py_min_spec.
Qed.

Lemma fold_max_ge (r : list Q) (x : Q) : x <= fold_left py_max r x.
Proof.
  revert x. induction r as [|y r IH]; intro x; cbn [fold_left]; [lra|].
  apply Qle_trans with (py_max x y); [|apply IH].
  apply py_max_spec.
Qed.

Lemma seq_min_le_max (l : list Q) (m M : Q) :
  py_min_seq l = Some m -> py_max_seq l = Some M -> m <= M.
Proof.
  destruct l as [|x r]; [discriminate|]. cbn. intros Hm HM.
  injection Hm as <-. injection HM as <-.
  apply Qle_trans with x; [apply fold_min_le | apply fold_max_ge].
Qed.

Lemma bounds_ordered (s : State) (minx maxx miny maxy : Q) :
  bounds s = Some (minx, maxx, miny, maxy) -> minx <= maxx /\ miny <= maxy.
Proof.
  unfold bounds.
  destruct (py_min_seq (map fst _)) as [a|] eqn:E1; [|discriminate].
  destruct (py_max_seq (map fst _)) as [b|] eqn:E2; [|discriminate].
  destruct (py_min_seq (map snd _)) as [c|] eqn:E3; [|discriminate].
  destruct (py_max_seq (map snd _)) as [d|] eqn:E4; [|discriminate].
  intro H. injection H as <- <- <- <-.
  split; eapply seq_min_le_max; eassumption.
Qed.

Lemma axis_ratio_unit (lo hi v r : Q) :
  lo <= hi -> axis_ratio lo hi v = Some r -> 0 <= r <= 1.
Proof.
  intros Hle Hr.
  destruct (Qlt_le_dec lo hi) as [Hlt|Hge].
  - rewrite (axis_ratio_span lo hi v Hlt) in Hr. injection Hr as <-.
    destruct (clamp_spec lo hi v Hle) as (Hc & _).
    split.
    + apply Qle_shift_div_l; lra.
    + apply Qle_shift_div_r; lra.
  - rewrite axis_ratio_degenerate in Hr by lra. injection Hr as <-.
    split; discriminate.
Qed.

Lemma scaled_in_range (r : Q) (n : Z) :
  0 <= r <= 1 -> (0 <= n)%Z -> (0 <= py_int (r * inject_Z n) <= n)%Z.
Proof.
  intros Hr Hn.
  assert (Hq : 0 <= inject_Z n).
  { change 0 with (inject_Z 0). rewrite <- Zle_Qle. exact Hn. }
  split.
  - change 0%Z with (py_int 0). apply py_int_mono. nra.
  - rewrite <- (py_int_inject_Z n) at 2. apply py_int_mono. nra.
Qed.


(** The target of the mapper is a pixel of the screen. *)
Lemma map_in_screen (sw sh : Z) (s : State) (ix iy : Q) :
  calibration_points s <> [] -> (1 <= sw)%Z -> (1 <= sh)%Z ->
  exists p, _map sw sh s ix iy = Some p /\ on_screen sw sh p.
Proof.
  intros Hne Hsw Hsh.
  destruct (bounds_some s Hne) as ([[[minx maxx] miny] maxy] & Hb).
  destruct (bounds_ordered s _ _ _ _ Hb) as (Hx & Hy).
  destruct (axis_ratio_some minx maxx ix) as (rx & Hrx).
  destruct (axis_ratio_some miny maxy iy) as (ry & Hry).
  unfold _map, gaze_ratio. rewrite Hb, Hrx, Hry.
  eexists. split; [reflexivity|].
  split; cbn [fst snd]; apply scaled_in_range; try lia.
  - exact (axis_ratio_unit minx maxx ix rx Hx Hrx).
  - exact (axis_ratio_unit miny maxy iy ry Hy Hry).
Qed.

(** X11.  Whatever the calibration points, one or five, rectangle or not,
    and wherever the iris is, the mapper returns a pixel of the screen:
    [0 <= x <= sw - 1] and [0 <= y <= sh - 1].  It reads the first four
    points only: the fifth, captured at the centre prompt, has no effect
    on the mapping. *)
Theorem map_stays_on_screen (sw sh : Z) (s : State) (ix iy : Q) :
  calibration_points s <> [] ->
  (1 <= sw)%Z -> (1 <= sh)%Z ->
  (exists x y,
     _map sw sh s ix iy = Some (x, y)
     /\ (0 <= x <= sw - 1)%Z /\ (0 <= y <= sh - 1)%Z)
  /\ (forall s2,
        firstn 4 (calibration_points s2) = firstn 4 (calibration_points s) ->
        _map sw sh s2 ix iy = _map sw sh s ix iy).
Proof.
  intros Hne Hsw Hsh. split.
  - destruct (map_in_screen sw sh s ix iy Hne Hsw Hsh) as ([x y] & Hm & Hx & Hy).
    exists x, y. cbn in Hx, Hy. auto.
  - intros s2 H. unfold _map, gaze_ratio, bounds. rewrite H. reflexivity.
Qed.



(** What the blink phase can issue. *)
Lemma blink_out_shape (cfg : Settings) (f : face) (s : State) :
  let out := snd (blink_edge cfg (f_ear f) (f_iris f) (f_now f) s) in
  out = []
  \/ out = [BlinkEvent (f_now f)]
  \/ (exists txt, out = [BlinkEvent (f_now f); SetText txt])
  \/ (exists txt,
        out = [BlinkEvent (f_now f); SetText txt; CalibrationComplete])
  \/ (calibrated s = true /\ out = [BlinkEvent (f_now f); Pointer Click]).
Proof.
  cbv zeta. rewrite blink_edge_cases.
  destruct (Qlt_bool (f_ear f) (blink_thresh cfg)); [left; reflexivity|].
  destruct (is_blinking s); [|left; reflexivity].
  cbn [snd]. unfold on_blink. cbn [calibrated set_last_blink set_is_blinking].
  destruct (calibrated s); cbn [negb].
  - right; right; right; right. split; reflexivity.
  - repeat match goal with
    | |- context [if ?b then _ else _] => destruct b
    end; cbn [snd]; eauto 10.
Qed.

Section Screen.

Variables sw sh : Z.
Variable pow_half : Q -> Q.
Variable cfg : Settings.

Hypothesis ignore_nonneg : 0 <= ignore_after_blink cfg.
Hypothesis alpha_nonneg : 0 <= alpha cfg.
Hypothesis screen_w_pos : (1 <= sw)%Z.
Hypothesis screen_h_pos : (1 <= sh)%Z.


End Screen.


(** *** Before and during calibration *)

Section Calibrating.

Variables sw sh : Z.
Variable pow_half : Q -> Q.
Variable cfg : Settings.

Hypothesis ignore_nonneg : 0 <= ignore_after_blink cfg.

(** A frame that starts uncalibrated, the one that completes the
    calibration included, does not reach the gaze phase. *)
Lemma calibrating_frame_quiet (f : face) (s : State) :
  wf s ->
  calibrated s = false ->
  exists s' out,
    update_face sw sh pow_half cfg f s = Some (s', out)
    /\ wf s'
    /\ filter is_pointer out = []
    /\ smoothed s' = smoothed s
    /\ dwell_ts s' = dwell_ts s
    /\ last_click s' = last_click s.
Proof.
  intros Hwf Hc.
  destruct (update_face_total sw sh pow_half cfg f s Hwf)
    as (s' & out2 & Hu & Hg & Hwf').
  exists s'. eexists. split; [exact Hu|]. split; [exact Hwf'|].
  pose proof (blink_edge_effect cfg f s) as He. cbv zeta in He.
  destruct He as (_ & (G1 & G2 & G3) & _ & Hwf1 & Hno & Hyes).
  destruct (gaze_effect sw sh pow_half cfg (f_iris f) (f_now f) _ (Hwf1 Hwf))
    as (s2 & o2 & Hg2 & _ & _ & _ & Hskip).
  rewrite Hg in Hg2. injection Hg2 as <- <-.
  assert (Hq : gaze_active cfg (f_now f)
                 (fst (blink_edge cfg (f_ear f) (f_iris f) (f_now f) s)) = false).
  { destruct (falling_edge cfg f s) eqn:Hfe.
    - destruct (Hyes eq_refl) as (Hlb & _).
      apply gaze_skipped_after_blink; assumption.
    - destruct (Hno eq_refl) as (_ & Hcal & _).
      unfold gaze_active. rewrite Hcal, Hc. reflexivity. }
  destruct (Hskip Hq) as (-> & ->). rewrite app_nil_r.
  split; [|auto].
  pose proof (blink_out_shape cfg f s) as Hs. cbv zeta in Hs.
  destruct Hs as [E|[E|[(txt & E)|[(txt & E)|(Hc' & _)]]]];
    try (rewrite E; reflexivity).
  congruence.
Qed.

(** The blink events of a frame against the points it captures. *)
Lemma frame_blink_budget (f : face) (s : State) :
  wf s ->
  exists s' out,
    update_face sw sh pow_half cfg f s = Some (s', out)
    /\ wf s'
    /\ (2 * List.length (calibration_points s') + pending s'
        <= 2 * List.length (calibration_points s) + pending s
           + List.length (blink_stamps out))%nat.
Proof.
  intro Hwf. destruct (calibrated s) eqn:Hc.
  - destruct (update_face_calibrated sw sh pow_half cfg f s Hwf Hc)
      as (s' & out & Hu & Hwf' & _ & C2 & _ & C4 & _).
    exists s', out. split; [exact Hu|]. split; [exact Hwf'|].
    unfold pending. rewrite C2, C4. lia.
  - destruct (update_face_calibrating sw sh pow_half cfg f s Hwf Hc)
      as (s' & out & Hu & Hwf' & _ & Hst & H).
    exists s', out. split; [exact Hu|]. split; [exact Hwf'|].
    rewrite Hst. unfold pending.
    destruct (falling_edge cfg f s).
    + destruct (double_blink cfg (f_now f) s) eqn:Hd.
      * destruct H as (-> & -> & _).
        rewrite length_app. cbn [List.length].
        unfold double_blink, prev_blink in Hd.
        destruct (blink_times s); [discriminate|]. lia.
      * destruct H as (-> & -> & _).
        destruct (prev_blink s); destruct (blink_times s); cbn; lia.
    + destruct H as (-> & -> & _). cbn. lia.
Qed.

End Calibrating.

(** X10.  Until calibration is complete the pointer is left alone: a frame
    that starts in an uncalibrated state, the frame that completes the
    calibration included, issues no pointer command and does not touch the
    smoothed position, the dwell timer or the last-click time; so a run
    that ends uncalibrated has issued no pointer command at all. *)
Theorem no_pointer_before_calibration (sw sh : Z) (pow_half : Q -> Q)
  (cfg : Settings) (s : State) :
  0 <= ignore_after_blink cfg ->
  wf s ->
  calibrated s = false ->
  (forall f : face,
     exists s' out,
       update_face sw sh pow_half cfg f s = Some (s', out)
       /\ filter is_pointer out = []
       /\ smoothed s' = smoothed s
       /\ dwell_ts s' = dwell_ts s
       /\ last_click s' = last_click s)
  /\ (forall (fs : list face) (s' : State) (outs : list (list event)),
        run sw sh pow_half cfg fs s = Some (s', outs) ->
        calibrated s' = false ->
        Forall (fun out => filter is_pointer out = []) outs
        /\ smoothed s' = smoothed s
        /\ dwell_ts s' = dwell_ts s
        /\ last_click s' = last_click s).
Proof.
  intros Hi Hwf Hc. split.
  - intro f.
    destruct (calibrating_frame_quiet sw sh pow_half cfg Hi f s Hwf Hc)
      as (s' & out & Hu & _ & H).
    exists s', out. auto.
  - intros fs. revert s Hwf Hc.
    induction fs as [|f rest IH]; intros s Hwf Hc s' outs Hr Hc'.
    + cbn in Hr. injection Hr as <- <-. repeat split. constructor.
    + cbn [run] in Hr.
      destruct (calibrating_frame_quiet sw sh pow_half cfg Hi f s Hwf Hc)
        as (s1 & out & Hu & Hwf1 & Hp & G1 & G2 & G3).
      rewrite Hu in Hr.
      destruct (run sw sh pow_half cfg rest s1) as [[s2 outs']|] eqn:Hr1;
        [|discriminate].
      injection Hr as <- <-.
      assert (Hc1 : calibrated s1 = false).
      { destruct (calibrated s1) eqn:E; [|reflexivity].
        destruct (run_completes sw sh pow_half cfg rest s1 Hwf1)
          as (x & y & Hx & _ & _ & Hk).
        rewrite Hr1 in Hx. injection Hx as <- <-.
        destruct (Hk E) as (K & _). congruence. }
      destruct (IH s1 Hwf1 Hc1 s2 outs' Hr1 Hc') as (I1 & I2 & I3 & I4).
      split; [constructor; assumption|]. repeat split; congruence.
Qed.

(** X13.  Every captured point costs two blink events: over any run, twice
    the points captured, plus one if a timestamp is left waiting in the
    buffer, is at most the number of blink events raised, plus one if a
    timestamp was waiting at the start.  So a calibration that starts from
    the initial state is not complete before the tenth blink. *)
Theorem two_blinks_per_point (sw sh : Z) (pow_half : Q -> Q)
  (cfg : Settings) (fs : list face) (s : State) :
  wf s ->
  exists s' outs,
    run sw sh pow_half cfg fs s = Some (s', outs)
    /\ (2 * List.length (calibration_points s') + pending s'
        <= 2 * List.length (calibration_points s) + pending s
           + blinks outs)%nat
    /\ (calibration_points s = [] -> blink_times s = [] ->
        calibrated s' = true -> (10 <= blinks outs)%nat).
Proof.
  intro Hwf.
  assert (H : exists s' outs,
             run sw sh pow_half cfg fs s = Some (s', outs)
             /\ wf s'
             /\ (2 * List.length (calibration_points s') + pending s'
                 <= 2 * List.length (calibration_points s) + pending s
                    + blinks outs)%nat).
  { revert s Hwf. induction fs as [|f rest IH]; intros s Hwf.
    - exists s, []. split; [reflexivity|]. split; [exact Hwf|].
      unfold blinks. cbn. lia.
    - destruct (frame_blink_budget sw sh pow_half cfg f s Hwf)
        as (s1 & out & Hu & Hwf1 & Hb).
      destruct (IH s1 Hwf1) as (s2 & outs & Hr & Hwf2 & Hb2).
      exists s2, (out :: outs). cbn [run]. rewrite Hu, Hr.
      split; [reflexivity|]. split; [exact Hwf2|].
      unfold blinks in *. cbn [List.concat].
      rewrite blink_stamps_app, length_app. lia. }
  destruct H as (s' & outs & Hr & Hwf' & Hb).
  exists s', outs. split; [exact Hr|]. split; [exact Hb|].
  intros Hp Hbt Hc.
  destruct Hwf' as (W1 & _ & W3 & _). apply W3 in Hc.
  rewrite Hc in W1. rewrite <- W1, Hp in Hb.
  unfold pending in Hb at 2. rewrite Hbt in Hb. cbn in Hb. lia.
Qed.

(** X14.  Re-calibration forgets the points, the step and the smoothed
    position and nothing else; doing it twice is doing it once.  The blink
    buffer is kept: a timestamp waiting in it pairs with the first blink
    after the re-calibration, which then captures the first point by
    itself if it comes within [double_window]. *)
Theorem recalibration_keeps_blink_buffer (sw sh : Z) (pow_half : Q -> Q)
  (cfg : Settings) (s : State) :
  wf s ->
  let s0 := fst (start_recalib s) in
  (wf s0 /\ calibrated s0 = false /\ calibration_points s0 = []
   /\ calibration_step s0 = 0%nat /\ smoothed s0 = None)
  /\ (is_blinking s0 = is_blinking s /\ blink_times s0 = blink_times s
      /\ last_blink s0 = last_blink s /\ dwell_ts s0 = dwell_ts s
      /\ last_click s0 = last_click s)
  /\ start_recalib s0 = start_recalib s
  /\ (forall (f : face) (t : Q),
        prev_blink s = Some t ->
        is_blinking s = true ->
        blink_thresh cfg <= f_ear f ->
        f_now f - t < double_window cfg ->
        exists s' out,
          update_face sw sh pow_half cfg f s0 = Some (s', out)
          /\ calibration_points s' = [f_iris f]
          /\ calibration_step s' = 1%nat
          /\ blink_times s' = []).
Proof.
  intros Hwf. cbv zeta.
  pose proof (wf_start_recalib s Hwf) as Hwf0.
  split; [|split; [|split]].
  - split; [exact Hwf0|]. repeat split.
  - repeat split.
  - reflexivity.
  - intros f t Hp Hb He Hd.
    destruct (update_face_calibrating sw sh pow_half cfg f
                (fst (start_recalib s)) Hwf0 eq_refl)
      as (s' & out & Hu & _ & _ & _ & H).
    exists s', out. split; [exact Hu|].
    assert (Hfe : falling_edge cfg f (fst (start_recalib s)) = true).
    { unfold falling_edge. cbn [start_recalib fst is_blinking].
      rewrite Hb. apply Qle_bool_iff. exact He. }
    assert (Hdb : double_blink cfg (f_now f) (fst (start_recalib s)) = true).
    { unfold double_blink.
      change (prev_blink (fst (start_recalib s))) with (prev_blink s).
      rewrite Hp. apply Qlt_bool_iff. exact Hd. }
    rewrite Hfe, Hdb in H. destruct H as (B1 & B2 & B3 & _).
    rewrite B1, B2, B3. repeat split.
Qed.

(** X15.  A frame of the gaze pipeline issues at most one pointer command,
    and it is a Click or a MoveTo animated over 0.08 s: the click of a
    blink and the commands of the gaze phase never come together, and no
    MouseDown, MouseUp or Scroll is ever issued. *)
Theorem one_pointer_command_per_frame (sw sh : Z) (pow_half : Q -> Q)
  (cfg : Settings) (f : face) (s : State) :
  0 <= ignore_after_blink cfg ->
  wf s ->
  exists s' out,
    update_face sw sh pow_half cfg f s = Some (s', out)
    /\ (List.length (filter is_pointer out) <= 1)%nat
    /\ (forall c, In (Pointer c) out ->
        c = Click \/ exists x y, c = MoveTo x y 0.08)
    /\ (In (Pointer Click) out -> calibrated s = true).
Proof.
  intros Hi Hwf.
  destruct (update_face_kind sw sh pow_half cfg Hi f s Hwf)
    as (s' & out & Hu & _ & H).
  exists s', out. split; [exact Hu|].
  destruct (kind sw sh pow_half cfg f s) eqn:Hk.
  - destruct H as (_ & ->).
    pose proof (blink_out_shape cfg f s) as Hs. cbv zeta in Hs.
    destruct Hs as [E|[E|[(txt & E)|[(txt & E)|(Hc & E)]]]]; rewrite E;
      (split; [cbn; lia|]); split; intros;
      repeat match goal with
      | Hin : In _ _ |- _ =>
          cbn in Hin;
          repeat (destruct Hin as [Hin|Hin]; try discriminate);
          try contradiction
      end;
      try match goal with
          | Heq : Pointer Click = Pointer _ |- _ =>
              injection Heq as <-; left; reflexivity
          end;
      assumption.
  - destruct H as (target & _ & _ & -> & _).
    split; [cbn; lia|]. split; intros; contradiction.
  - destruct H as (target & from & _ & _ & _ & _ & _ & H).
    assert (Hc : calibrated s = true).
    { unfold kind in Hk.
      destruct (processed cfg f s) eqn:Hp; [|discriminate].
      pose proof (processed_blink_phase cfg Hi f s Hp) as Hb. cbv zeta in Hb.
      apply Hb. }
    destruct (Qlt_bool (dwell cfg) (f_now f - dwell_ts s)
              && Qlt_bool (dwell cfg) (f_now f - last_click s));
      destruct H as (-> & _); (split; [cbn; lia|]); split; intros;
      try contradiction; try exact Hc.
    cbn in H. destruct H as [H|[]]. injection H as <-. left; reflexivity.
  - destruct H as (target & from & _ & _ & _ & H). cbv zeta in H.
    destruct H as (_ & -> & _).
    split; [cbn; lia|]. split.
    + intros c Hin. cbn in Hin. destruct Hin as [Hin|[]].
      injection Hin as <-. right. eauto.
    + intro Hin. cbn in Hin. destruct Hin as [Hin|[]]. discriminate.
Qed.

(** *** Examples *)

Lemma hypot_approx_nonneg (x y : Q) : 0 <= Approx.hypot_approx x y.
Proof.
  unfold Approx.hypot_approx, Approx.sqrt_approx.
  apply Qle_shift_div_l; [reflexivity|].
  rewrite Qmult_0_l. change 0 with (inject_Z 0). rewrite <- Zle_Qle.
  apply Z.sqrt_nonneg.
Qed.

(** A face collapsed to one point. *)
Definition collapsed_face : landmarks := fun _ => (0.5, 0.5).

(** In the middle of a calibration: one point captured, a blink at time 3
    waiting in the buffer, the eye closed again. *)
Definition mid_calibration : State :=
  {| calibrated := false; calibration_points := [(0.3, 0.3)];
     calibration_step := 1; is_blinking := true; blink_times := [3];
     last_blink := 3; smoothed := None; dwell_ts := 0; last_click := 0 |}.

Lemma wf_mid_calibration : wf mid_calibration.
Proof. unfold wf; cbn. repeat split; try lia; discriminate. Qed.

Lemma wf_calibrated_on_unit : wf (calibrated_on unit_corners).
Proof. unfold wf, calibrated_on; cbn. repeat split; lia. Qed.

Lemma degenerate_eye_reads_closed_witness :
  exists s' out,
    _update 1920 1080 Approx.sqrt_approx Approx.hypot_approx default_settings
      (mkCapture true [collapsed_face] 1) init
    = Some (s', out)
    /\ is_blinking s' = true.
Proof.
  destruct (degenerate_eye_reads_closed 1920 1080 Approx.sqrt_approx
              Approx.hypot_approx default_settings hypot_approx_nonneg
              collapsed_face 1 init wf_init ltac:(reflexivity))
    as (_ & _ & _ & H).
  destruct H as (s' & out & Hu & Hb & _);
    [vm_compute; reflexivity | vm_compute; reflexivity |].
  exists s', out. split; [exact Hu | exact Hb].
Defined.

Lemma no_pointer_before_calibration_witness :
  exists s' out,
    update_face 1920 1080 Approx.sqrt_approx default_settings
      (mkFace 0.25 (0.4, 0.4) 3.2) mid_calibration
    = Some (s', out)
    /\ filter is_pointer out = [].
Proof.
  destruct (no_pointer_before_calibration 1920 1080 Approx.sqrt_approx
              default_settings mid_calibration
              ltac:(vm_compute; discriminate) wf_mid_calibration eq_refl)
    as (H & _).
  destruct (H (mkFace 0.25 (0.4, 0.4) 3.2)) as (s' & out & Hu & Hp & _).
  exists s', out. split; [exact Hu | exact Hp].
Defined.

Lemma map_stays_on_screen_witness :
  exists x y,
    _map 1920 1080 (calibrated_on example_corners) 0.9 0.1 = Some (x, y)
    /\ (0 <= x <= 1919)%Z /\ (0 <= y <= 1079)%Z.
Proof.
  destruct (map_stays_on_screen 1920 1080 (calibrated_on example_corners)
              0.9 0.1 ltac:(discriminate) ltac:(lia) ltac:(lia))
    as (H & _).
  exact H.
Defined.


Lemma two_blinks_per_point_witness :
  exists s' outs,
    run 1920 1080 Approx.sqrt_approx default_settings
      [mkFace 0.1 (0.4, 0.4) 1; mkFace 0.3 (0.4, 0.4) 1.1;
       mkFace 0.1 (0.4, 0.4) 1.2; mkFace 0.3 (0.4, 0.4) 1.3] init
    = Some (s', outs)
    /\ (2 * List.length (calibration_points s') + pending s'
        <= blinks outs)%nat.
Proof.
  destruct (two_blinks_per_point 1920 1080 Approx.sqrt_approx default_settings
              [mkFace 0.1 (0.4, 0.4) 1; mkFace 0.3 (0.4, 0.4) 1.1;
               mkFace 0.1 (0.4, 0.4) 1.2; mkFace 0.3 (0.4, 0.4) 1.3]
              init wf_init)
    as (s' & outs & Hr & Hb & _).
  exists s', outs. split; [exact Hr | exact Hb].
Defined.

Lemma recalibration_keeps_blink_buffer_witness :
  exists s' out,
    update_face 1920 1080 Approx.sqrt_approx default_settings
      (mkFace 0.25 (0.4, 0.4) 3.2) (fst (start_recalib mid_calibration))
    = Some (s', out)
    /\ calibration_points s' = [(0.4, 0.4)].
Proof.
  destruct (recalibration_keeps_blink_buffer 1920 1080 Approx.sqrt_approx
              default_settings mid_calibration wf_mid_calibration)
    as (_ & _ & _ & H).
  destruct (H (mkFace 0.25 (0.4, 0.4) 3.2) 3 eq_refl eq_refl
              ltac:(vm_compute; discriminate) ltac:(reflexivity))
    as (s' & out & Hu & Hp & _).
  exists s', out. split; [exact Hu | exact Hp].
Defined.

Lemma one_pointer_command_per_frame_witness :
  exists s' out,
    update_face 101 101 Approx.sqrt_approx default_settings
      (mkFace 0.3 (1, 0) 10) (calibrated_on unit_corners)
    = Some (s', out)
    /\ (List.length (filter is_pointer out) <= 1)%nat.
Proof.
  destruct (one_pointer_command_per_frame 101 101 Approx.sqrt_approx
              default_settings (mkFace 0.3 (1, 0) 10)
              (calibrated_on unit_corners)
              ltac:(vm_compute; discriminate) wf_calibrated_on_unit)
    as (s' & out & Hu & Hl & _).
  exists s', out. split; [exact Hu | exact Hl].
Defined.

End EyeMore.
